(** * serialdump: SLIP frame decoding and output formatting

    A shallow embedding of the receive loop, the transmit wrapping and the
    hex line printer of [tools/serial/serialdump.c], with the properties of
    the frame codec and of the formatter proved about it.

    Bytes ([unsigned char]) and the [int] variables [index] and [flags] are
    integers in [Z]; the receive buffer [rxbuf] is a list updated by index;
    what the program prints is a list of output events, each standing for
    one print statement of the source, with [render] giving the characters. *)

From Stdlib Require Import ZArith String Ascii Bool Lia.
From stdpp Require Import base option list.

Local Open Scope Z_scope.

(** ** Constants of the source *)

Definition SLIP_END : Z := 192.      (* 0300 *)
Definition SLIP_ESC : Z := 219.      (* 0333 *)
Definition SLIP_ESC_END : Z := 220.  (* 0334 *)
Definition SLIP_ESC_ESC : Z := 221.  (* 0335 *)

Definition slipend : Z := SLIP_END.

Definition BUFSIZE : Z := 40.
Definition HCOLS : Z := 20.
Definition ICOLS : Z := 18.

(** [sizeof(rxbuf)] for [static unsigned char rxbuf[2048]]. *)
Definition RXBUF_SIZE : Z := 2048.

Inductive mode_t : Type :=
| MODE_START_DATE
| MODE_DATE
| MODE_START_TEXT
| MODE_TEXT
| MODE_INT
| MODE_HEX
| MODE_SLIP_AUTO
| MODE_SLIP
| MODE_SLIP_HIDE.

Definition mode_eqb (a b : mode_t) : bool :=
  match a, b with
  | MODE_START_DATE, MODE_START_DATE | MODE_DATE, MODE_DATE
  | MODE_START_TEXT, MODE_START_TEXT | MODE_TEXT, MODE_TEXT
  | MODE_INT, MODE_INT | MODE_HEX, MODE_HEX
  | MODE_SLIP_AUTO, MODE_SLIP_AUTO | MODE_SLIP, MODE_SLIP
  | MODE_SLIP_HIDE, MODE_SLIP_HIDE => true
  | _, _ => false
  end.

(** ** print_hex_line *)

Definition hex_digit (d : Z) : ascii :=
  if d <? 10 then ascii_of_N (Z.to_N (48 + d)) else ascii_of_N (Z.to_N (55 + d)).

(** [printf("%02X", c)] for a byte [c]. *)
Definition hex2 (c : Z) : string :=
  String (hex_digit (c / 16)) (String (hex_digit (c mod 16)) EmptyString).

(** [printf("%c", c)] for a byte [c]. *)
Definition putc (c : Z) : string :=
  String (ascii_of_N (Z.to_N c)) EmptyString.

(** [outbuf[i]]; the printer only reads below [index]. *)
Definition peek (outbuf : list Z) (i : Z) : Z :=
  default 0 (outbuf !! Z.to_nat i).

Definition group_gap (i : Z) : string :=
  if i mod 4 =? 0 then " "%string else EmptyString.

(** The first loop: the hex pairs of the bytes held. *)
Definition hex_pairs (outbuf : list Z) (index : Z) : string :=
  String.concat EmptyString
    (map (fun i => (group_gap i ++ hex2 (peek outbuf i))%string) (seqZ 0 index)).

(** The second loop: two blanks for every byte missing up to [HCOLS]. *)
Definition hex_padding (index : Z) : string :=
  String.concat EmptyString
    (map (fun i => (group_gap i ++ "  ")%string) (seqZ index (HCOLS - index))).

(** The third loop: the bytes as characters, a dot outside 30..126. *)
Definition ascii_part (outbuf : list Z) (index : Z) : string :=
  String.concat EmptyString
    (map (fun i => let c := peek outbuf i in
                   if (c <? 30) || (c >? 126) then "."%string else putc c)
         (seqZ 0 index)).

Definition carriage_return : string := String (ascii_of_N 13) EmptyString.
Definition line_feed : string := String (ascii_of_N 10) EmptyString.

(** What [print_hex_line] prints before the character rendering. *)
Definition hex_columns (prefix : string) (outbuf : list Z) (index : Z) : string :=
  (carriage_return ++ prefix ++ hex_pairs outbuf index ++ "  " ++ hex_padding index)%string.

Definition print_hex_line (prefix : string) (outbuf : list Z) (index : Z) : string :=
  (hex_columns prefix outbuf index ++ ascii_part outbuf index)%string.

(** The [do ... while(n < index)] loop that shows a closed packet in lines
    of [HCOLS] bytes; it runs at most [index / HCOLS + 1] times. *)
Fixpoint show_packet_from (fuel : nat) (prefix : string) (rx : list Z) (n index : Z)
  : string :=
  match fuel with
  | O => EmptyString
  | S fuel' =>
      let count := if index - n >? HCOLS then HCOLS else index - n in
      let more := n + HCOLS <? index in
      (print_hex_line prefix (drop (Z.to_nat n) rx) count
       ++ line_feed
       ++ (if more
           then show_packet_from fuel' "     " rx (n + HCOLS) index
           else EmptyString))%string
  end.

Definition show_packet (rx : list Z) (index : Z) : string :=
  show_packet_from (S (Z.to_nat (index / HCOLS))) "SLIP:" rx 0 index.

(** ** The receive loop *)

(** The variables of [main] that the per-byte [switch] reads and writes. *)
Record state : Type := mkState {
  mode : mode_t;
  index : Z;
  flags : Z;
  lastc : Z;
  rxbuf : list Z
}.

(** One constructor per print statement of the loop. *)
Inductive event : Type :=
| Putc (c : Z)                 (* printf("%c", buf[i]) *)
| Timestamp                    (* the time prefix of MODE_START_DATE *)
| Decimal (c : Z)              (* printf("%03d ", buf[i]) *)
| Newline                      (* printf("\n") *)
| HexLine (bytes : list Z)     (* print_hex_line("", rxbuf, index) *)
| Packet (bytes : list Z)      (* the SLIP: lines of rxbuf[0..index) *)
| SlipOverflow.                (* fprintf(stderr, "**** slip overflow\n") *)

Definition dec3 (c : Z) : string :=
  String (hex_digit (c / 100))
    (String (hex_digit ((c / 10) mod 10))
       (String (hex_digit (c mod 10)) " ")).

(** The characters an event puts on standard output; [stamp] is the text
    the clock gives for a time prefix. *)
Definition render (stamp : string) (e : event) : string :=
  match e with
  | Putc c => putc c
  | Timestamp => stamp
  | Decimal c => dec3 c
  | Newline => line_feed
  | HexLine bytes => print_hex_line "" bytes (Z.of_nat (length bytes))
  | Packet bytes => show_packet bytes (Z.of_nat (length bytes))
  | SlipOverflow => EmptyString
  end.

Definition stdout_of (stamp : string) (evs : list event) : string :=
  String.concat EmptyString (map (render stamp) evs).

(** [rxbuf[i] = c]: defined inside the array only. *)
Definition rxbuf_store (rx : list Z) (i c : Z) : option (list Z) :=
  if (0 <=? i) && (i <? RXBUF_SIZE)
  then Some (<[Z.to_nat i := c]> rx)
  else None.

(** C's [!flags]. *)
Definition lnot (f : Z) : Z := if f =? 0 then 1 else 0.

(** The inner [switch] on a byte that follows an escape. *)
Definition unescape (c : Z) : Z :=
  if c =? SLIP_ESC_END then SLIP_END
  else if c =? SLIP_ESC_ESC then SLIP_ESC
  else c.

(** [case MODE_SLIP]: the [switch(buf[i])] of the decoder. *)
Definition slip_byte (st : state) (c : Z) : option (state * list event) :=
  if c =? SLIP_ESC then
    Some (mkState (mode st) (index st) (flags st) SLIP_ESC (rxbuf st), [])
  else if c =? SLIP_END then
    if index st >? 0 then
      Some (mkState (mode st) 0 0 0 (rxbuf st),
            if negb (flags st =? 2) && negb (mode_eqb (mode st) MODE_SLIP_HIDE)
            then [Packet (take (Z.to_nat (index st)) (rxbuf st))]
            else [])
    else
      Some (mkState (mode st) (index st) (lnot (flags st)) (lastc st) (rxbuf st), [])
  else
    let escaped := lastc st =? SLIP_ESC in
    let lastc' := if escaped then 0 else lastc st in
    let c' := if escaped then unescape c else c in
    rx ← rxbuf_store (rxbuf st) (index st) c';
    let index' := index st + 1 in
    if index' >=? RXBUF_SIZE then
      Some (mkState (mode st) 0 2 lastc' rx, [SlipOverflow])
    else
      Some (mkState (mode st) index' (flags st) lastc' rx, []).

(** [case MODE_DATE]. *)
Definition date_byte (st : state) (c : Z) : state * list event :=
  (mkState (if c =? 10 then MODE_START_DATE else MODE_DATE)
     (index st) (flags st) (lastc st) (rxbuf st),
   [Putc c]).

(** The body of [for(i = 0; i < n; i++)] for the byte [c = buf[i]]. *)
Definition step (st : state) (c : Z) : option (state * list event) :=
  match mode st with
  | MODE_START_TEXT | MODE_TEXT => Some (st, [Putc c])
  | MODE_START_DATE =>
      let '(st', evs) := date_byte st c in Some (st', Timestamp :: evs)
  | MODE_DATE => Some (date_byte st c)
  | MODE_INT =>
      let index' := index st + 1 in
      if index' >=? ICOLS then
        Some (mkState (mode st) 0 (flags st) (lastc st) (rxbuf st),
              [Decimal c; Newline])
      else
        Some (mkState (mode st) index' (flags st) (lastc st) (rxbuf st),
              [Decimal c])
  | MODE_HEX =>
      rx ← rxbuf_store (rxbuf st) (index st) c;
      let index' := index st + 1 in
      if index' >=? HCOLS then
        Some (mkState (mode st) 0 (flags st) (lastc st) rx,
              [HexLine (take (Z.to_nat index') rx); Newline])
      else
        Some (mkState (mode st) index' (flags st) (lastc st) rx, [])
  | MODE_SLIP_AUTO | MODE_SLIP_HIDE =>
      if (flags st =? 0) && negb (c =? SLIP_END) then Some (st, [Putc c])
      else slip_byte st c
  | MODE_SLIP => slip_byte st c
  end.

(** The [for] loop over the bytes of one read. *)
Fixpoint run (st : state) (bytes : list Z) : option (state * list event) :=
  match bytes with
  | [] => Some (st, [])
  | c :: rest =>
      '(st1, evs1) ← step st c;
      '(st2, evs2) ← run st1 rest;
      Some (st2, evs1 ++ evs2)
  end.

(** One pass of [if(FD_ISSET(fd, &smask))]: the loop, then the partial hex
    line when hex mode holds bytes. *)
Definition process_chunk (st : state) (bytes : list Z) : option (state * list event) :=
  '(st', evs) ← run st bytes;
  Some (st',
        evs ++ (if (index st' >? 0) && mode_eqb (mode st') MODE_HEX
                then [HexLine (take (Z.to_nat (index st')) (rxbuf st'))]
                else [])).

(** The state at the top of [for(;;)]: [index = 0], [flags = 0],
    [lastc = '\0'] and the zeroed static buffer. *)
Definition init (m : mode_t) : state :=
  mkState m 0 0 0 (replicate (Z.to_nat RXBUF_SIZE) 0).

(** ** The transmit path *)

(** What is written to the channel for the [n > 0] bytes of one read of
    standard input: in MODE_SLIP a delimiter, the bytes as they are, and a
    delimiter. *)
Definition send_chunk (m : mode_t) (buf : list Z) : list Z :=
  match buf with
  | [] => []
  | _ =>
      (if mode_eqb m MODE_SLIP then [slipend] else [])
      ++ buf
      ++ (if mode_eqb m MODE_SLIP then [slipend] else [])
  end.

(** ** Reading the decoder's state *)

(** The escape marker was the last byte taken by the decoder. *)
Definition escaped (st : state) : bool := lastc st =? SLIP_ESC.

(** The bytes accumulated for the current frame: [rxbuf[0..index)]. *)
Definition frame_buffer (st : state) : list Z :=
  take (Z.to_nat (index st)) (rxbuf st).

(** The byte is handed to the SLIP [switch]: always in MODE_SLIP, and in the
    automatic and hiding modes once [flags] is set. *)
Definition slip_on (st : state) : Prop :=
  mode st = MODE_SLIP
  \/ ((mode st = MODE_SLIP_AUTO \/ mode st = MODE_SLIP_HIDE) /\ flags st <> 0).

(** What holds of the decoder's variables between two bytes. *)
Record wf (st : state) : Prop := mkWf {
  wf_len : length (rxbuf st) = Z.to_nat RXBUF_SIZE;
  wf_index : 0 <= index st < RXBUF_SIZE;
  wf_lastc : lastc st = 0 \/ lastc st = SLIP_ESC
}.

(** The bytes a delimiter-free run of input leaves in the buffer: escape
    markers are taken out and the byte after one goes through [unescape]. *)
Fixpoint unstuff (esc : bool) (p : list Z) : list Z :=
  match p with
  | [] => []
  | c :: p' =>
      if c =? SLIP_ESC then unstuff true p'
      else (if esc then unescape c else c) :: unstuff false p'
  end.

(** Whether an escape is left open after such a run. *)
Fixpoint pending (esc : bool) (p : list Z) : bool :=
  match p with
  | [] => esc
  | c :: p' => pending (c =? SLIP_ESC) p'
  end.

(** The events of a closed frame: its packet, unless the mode hides it. *)
Definition packet_events (m : mode_t) (bytes : list Z) : list event :=
  if mode_eqb m MODE_SLIP_HIDE then [] else [Packet bytes].

(** The buffer index plus the bytes the run [p] adds to the buffer. *)
Definition filled (st : state) (p : list Z) : Z :=
  index st + Z.of_nat (length (unstuff (escaped st) p)).

(** The three modes that decode SLIP. *)
Definition slip_mode (m : mode_t) : Prop :=
  m = MODE_SLIP \/ m = MODE_SLIP_AUTO \/ m = MODE_SLIP_HIDE.

(** The state after a delimiter has closed a frame. *)
Definition closed (st : state) : state :=
  mkState (mode st) 0 0 0 (rxbuf st).

(** The state after a delimiter that found the buffer empty. *)
Definition toggled (st : state) : state :=
  mkState (mode st) (index st) (lnot (flags st)) (lastc st) (rxbuf st).

(** The content of the packets shown, in order. *)
Fixpoint decoded (evs : list event) : list Z :=
  match evs with
  | [] => []
  | Packet bytes :: rest => bytes ++ decoded rest
  | _ :: rest => decoded rest
  end.

(** The bytes of a stream that are neither delimiter nor escape marker:
    the only ones that put a byte into [rxbuf]. *)
Fixpoint data_count (bytes : list Z) : Z :=
  match bytes with
  | [] => 0
  | c :: rest =>
      (if (c =? SLIP_END) || (c =? SLIP_ESC) then 0 else 1) + data_count rest
  end.

(** The reads of the channel, one chunk per pass of [for(;;)]. *)
Fixpoint main_loop (st : state) (chunks : list (list Z))
  : option (state * list event) :=
  match chunks with
  | [] => Some (st, [])
  | bytes :: rest =>
      '(st1, evs1) ← process_chunk st bytes;
      '(st2, evs2) ← main_loop st1 rest;
      Some (st2, evs1 ++ evs2)
  end.

(** The bound the index stays below, by mode: the array for the SLIP
    modes, the line width for hex and decimal output; the text and date
    modes never move it. *)
Definition index_limit (m : mode_t) : Z :=
  match m with
  | MODE_SLIP | MODE_SLIP_AUTO | MODE_SLIP_HIDE => RXBUF_SIZE
  | MODE_HEX => HCOLS
  | MODE_INT => ICOLS
  | MODE_START_DATE | MODE_DATE | MODE_START_TEXT | MODE_TEXT => 1
  end.

(** The array keeps its size and the index is inside the bound of the
    mode. *)
Record index_ok (st : state) : Prop := mkIndexOk {
  ok_len : length (rxbuf st) = Z.to_nat RXBUF_SIZE;
  ok_index : 0 <= index st < index_limit (mode st)
}.

(** What one byte may do to the buffer and the index: nothing is written,
    or one cell is written at the old index, inside the array (inside the
    line in hex mode), and the index moves on by one or, where that would
    reach the limit, back to 0. *)
Definition step_writes (st st' : state) : Prop :=
  (rxbuf st' = rxbuf st
   /\ (index st' = index st \/ index st' = 0 \/ index st' = index st + 1))
  \/ (exists c',
        rxbuf st' = <[Z.to_nat (index st) := c']> (rxbuf st)
        /\ 0 <= index st < RXBUF_SIZE
        /\ (mode st = MODE_HEX -> index st < HCOLS)
        /\ index st' = (if index st + 1 >=? index_limit (mode st)
                        then 0 else index st + 1)).

(** The state with the pending escape cleared. *)
Definition unescaped (st : state) : state :=
  mkState (mode st) (index st) (flags st) 0 (rxbuf st).

(** The columns taken by the bytes at the given positions: two per byte and
    one more where a group of four begins. *)
Fixpoint columns (positions : list Z) : nat :=
  match positions with
  | [] => 0
  | i :: rest => (String.length (group_gap i) + 2 + columns rest)%nat
  end.

(** ** The transmit path with its system calls *)

(** What the handling of a read of standard input does on the channel. *)
Inductive tx_event : Type :=
| Wrote (c : Z)        (* a write(fd, &c, 1) that went through *)
| Slept (usec : Z).    (* usleep(delay) *)

(** The "write slowly" loop.  [ok k] tells whether the [k]-th call of
    [write] in this pass goes through (returns 1) or not (returns 0 or
    -1); a byte that is not written ends the program with [exit(1)].  The
    result is what happened and the exit status, if the program exits. *)
Fixpoint write_slowly (delay : Z) (ok : nat -> bool) (k : nat) (buf : list Z)
  : list tx_event * option Z :=
  match buf with
  | [] => ([], None)
  | c :: rest =>
      if ok k then
        let '(evs, status) := write_slowly delay ok (S k) rest in
        (Wrote c :: (if delay >? 0 then [Slept delay] else []) ++ evs, status)
      else ([], Some 1)
  end.

(** [write(fd, &slipend, 1)], whose result is not looked at. *)
Definition write_slipend (ok : nat -> bool) (k : nat) : list tx_event :=
  if ok k then [Wrote slipend] else [].

(** [if(FD_ISSET(fileno(stdin), &smask))]: [input] is [None] when [read]
    fails (the program exits with [exit(-1)]) and the bytes read
    otherwise; nothing is done for an empty read. *)
Definition stdin_ready (m : mode_t) (delay : Z) (ok : nat -> bool)
    (input : option (list Z)) : list tx_event * option Z :=
  match input with
  | None => ([], Some (-1))
  | Some [] => ([], None)
  | Some buf =>
      let slip := mode_eqb m MODE_SLIP in
      let opening := if slip then write_slipend ok 0 else [] in
      let first := if slip then 1%nat else 0%nat in
      let '(evs, status) := write_slowly delay ok first buf in
      match status with
      | Some code => (opening ++ evs, Some code)
      | None =>
          (opening ++ evs
           ++ (if slip then write_slipend ok (first + length buf) else []),
           None)
      end
  end.

(** The bytes that reached the channel, in order. *)
Fixpoint wrote (evs : list tx_event) : list Z :=
  match evs with
  | [] => []
  | Wrote c :: rest => c :: wrote rest
  | Slept _ :: rest => wrote rest
  end.

(** The pauses made, in order. *)
Fixpoint slept (evs : list tx_event) : list Z :=
  match evs with
  | [] => []
  | Wrote _ :: rest => slept rest
  | Slept d :: rest => d :: slept rest
  end.

(** ** The command line *)

Definition DEFAULT_BAUDRATE : Z := 57600.
Definition DEFAULT_DELAY : Z := 6000.

(** What [getopt] returns for the option string "b:B:xis::t::T::d:h": an
    option with its argument (required after b, B and d, optional after
    s, t and T), or '?' for anything else. *)
Inductive getopt_result : Type :=
| Opt_b (optarg : string)
| Opt_B (optarg : string)
| Opt_x
| Opt_i
| Opt_s (optarg : option string)
| Opt_t (optarg : option string)
| Opt_T (optarg : option string)
| Opt_d (optarg : string)
| Opt_h
| Opt_unknown.

(** The variables of [main] that the options set (the clock value
    [start_tv] that the option t reads is left out). *)
Record config : Type := mkConfig {
  cfg_baudrate : Z;
  cfg_mode : mode_t;
  cfg_timeformat : option string;
  cfg_starttime : Z;
  cfg_delay : Z
}.

(** The values the variables are declared with. *)
Definition default_config : config :=
  mkConfig DEFAULT_BAUDRATE MODE_START_TEXT None 0 DEFAULT_DELAY.

(** [*optarg]: the first character, NUL for the empty string. *)
Definition first_char (s : string) : ascii :=
  match s with
  | EmptyString => Ascii.zero
  | String a _ => a
  end.

(** The [switch(c)] of the option loop; [atoi] is the C library's.  The
    result is the new configuration, or the status [main] returns with
    after [usage].  [baudrate] is an [unsigned int]. *)
Definition apply_option (atoi : string -> Z) (o : getopt_result) (cfg : config)
  : config + Z :=
  match o with
  | Opt_b optarg | Opt_B optarg =>
      inl (mkConfig (atoi optarg mod 2 ^ 32) (cfg_mode cfg) (cfg_timeformat cfg)
             (cfg_starttime cfg) (cfg_delay cfg))
  | Opt_x =>
      inl (mkConfig (cfg_baudrate cfg) MODE_HEX (cfg_timeformat cfg)
             (cfg_starttime cfg) (cfg_delay cfg))
  | Opt_i =>
      inl (mkConfig (cfg_baudrate cfg) MODE_INT (cfg_timeformat cfg)
             (cfg_starttime cfg) (cfg_delay cfg))
  | Opt_s optarg =>
      let m :=
        match optarg with
        | None => MODE_SLIP_AUTO
        | Some arg =>
            if Ascii.eqb (first_char arg) "n" then MODE_SLIP_HIDE
            else if Ascii.eqb (first_char arg) "o" then MODE_SLIP
            else MODE_SLIP_AUTO
        end in
      inl (mkConfig (cfg_baudrate cfg) m (cfg_timeformat cfg)
             (cfg_starttime cfg) (cfg_delay cfg))
  | Opt_t optarg =>
      let starttime' :=
        match optarg with
        | Some arg => if Ascii.eqb (first_char arg) "0" then 1 else cfg_starttime cfg
        | None => cfg_starttime cfg
        end in
      inl (mkConfig (cfg_baudrate cfg) MODE_START_DATE None starttime'
             (cfg_delay cfg))
  | Opt_T optarg =>
      let format :=
        match optarg with
        | Some arg => arg
        | None => "%Y-%m-%d %H:%M:%S"%string
        end in
      inl (mkConfig (cfg_baudrate cfg) MODE_START_DATE (Some format)
             (cfg_starttime cfg) (cfg_delay cfg))
  | Opt_d optarg =>
      let delay' := atoi optarg in
      if delay' <? 0 then inr 1
      else inl (mkConfig (cfg_baudrate cfg) (cfg_mode cfg) (cfg_timeformat cfg)
                  (cfg_starttime cfg) delay')
  | Opt_h | Opt_unknown => inr 0
  end.

(** [while((c = getopt(...)) != -1)]: the options in the order [getopt]
    gives them. *)
Fixpoint parse_options (atoi : string -> Z) (opts : list getopt_result)
    (cfg : config) : config + Z :=
  match opts with
  | [] => inl cfg
  | o :: rest =>
      match apply_option atoi o cfg with
      | inl cfg' => parse_options atoi rest cfg'
      | inr status => inr status
      end
  end.

(** The mode an option sets, if it sets one. *)
Definition option_mode (o : getopt_result) : option mode_t :=
  match apply_option (fun _ => 0) o default_config with
  | inl cfg =>
      match o with
      | Opt_x | Opt_i | Opt_s _ | Opt_t _ | Opt_T _ => Some (cfg_mode cfg)
      | _ => None
      end
  | inr _ => None
  end.

(** The modes the receive loop can be started in. *)
Definition start_mode (m : mode_t) : bool :=
  match m with
  | MODE_DATE | MODE_TEXT => false
  | _ => true
  end.

(** Two states of the SLIP-only mode that differ at most in [flags], and
    there only between 0 and 1. *)
Definition same_but_started (st1 st2 : state) : Prop :=
  mode st1 = MODE_SLIP /\ mode st2 = MODE_SLIP
  /\ index st1 = index st2 /\ lastc st1 = lastc st2 /\ rxbuf st1 = rxbuf st2
  /\ (flags st1 = 2 <-> flags st2 = 2).

(** ** Reading the output *)

(** The bytes printed as text, in order. *)
Fixpoint putc_bytes (evs : list event) : list Z :=
  match evs with
  | [] => []
  | Putc c :: rest => c :: putc_bytes rest
  | _ :: rest => putc_bytes rest
  end.

(** The bytes printed as decimal columns, in order. *)
Fixpoint decimals (evs : list event) : list Z :=
  match evs with
  | [] => []
  | Decimal c :: rest => c :: decimals rest
  | _ :: rest => decimals rest
  end.

(** The bytes of the full hex lines printed, in order. *)
Fixpoint hex_shown (evs : list event) : list Z :=
  match evs with
  | [] => []
  | HexLine bytes :: rest => bytes ++ hex_shown rest
  | _ :: rest => hex_shown rest
  end.

Definition is_packet (e : event) : bool :=
  match e with Packet _ => true | _ => false end.

Definition is_putc (e : event) : bool :=
  match e with Putc _ => true | _ => false end.

Definition is_newline (e : event) : bool :=
  match e with Newline => true | _ => false end.

Definition is_timestamp (e : event) : bool :=
  match e with Timestamp => true | _ => false end.

Definition is_hex_line (e : event) : bool :=
  match e with HexLine _ => true | _ => false end.

(** How many of the events satisfy [f]. *)
Fixpoint count_events (f : event -> bool) (evs : list event) : nat :=
  match evs with
  | [] => 0
  | e :: rest => ((if f e then 1 else 0) + count_events f rest)%nat
  end.

(** How often the byte [b] occurs. *)
Fixpoint count_byte (b : Z) (bytes : list Z) : nat :=
  match bytes with
  | [] => 0
  | c :: rest =>
      let hit := if c =? b then 1%nat else 0%nat in
      (hit + count_byte b rest)%nat
  end.

(** The byte stuffing of the SLIP wire format, as the sender at the other
    end of the line applies it to a frame: DB DC for a delimiter byte,
    DB DD for an escape byte.  The program itself never stuffs. *)
Fixpoint stuff (bytes : list Z) : list Z :=
  match bytes with
  | [] => []
  | c :: rest =>
      (if c =? SLIP_END then [SLIP_ESC; SLIP_ESC_END]
       else if c =? SLIP_ESC then [SLIP_ESC; SLIP_ESC_ESC]
       else [c])
      ++ stuff rest
  end.

(** The events without the packets. *)
Definition without_packets (evs : list event) : list event :=
  filter (fun e => is_packet e = false) evs.

(** The same variables under another mode. *)
Definition with_mode (m : mode_t) (st : state) : state :=
  mkState m (index st) (flags st) (lastc st) (rxbuf st).

Definition is_date (m : mode_t) : bool :=
  match m with MODE_START_DATE | MODE_DATE => true | _ => false end.

(** ** Basic facts *)

Lemma run_app (st : state) (a b : list Z) :
  run st (a ++ b) =
  '(st1, evs1) ← run st a; '(st2, evs2) ← run st1 b; Some (st2, evs1 ++ evs2).
Proof.
  revert st. induction a as [|c a IH]; intros st; simpl.
  - destruct (run st b) as [[st2 evs2]|]; reflexivity.
  - destruct (step st c) as [[st1 evs1]|]; simpl; [|reflexivity].
    rewrite IH. destruct (run st1 a) as [[st2 evs2]|]; simpl; [|reflexivity].
    destruct (run st2 b) as [[st3 evs3]|]; simpl; [|reflexivity].
    by rewrite app_assoc.
Qed.

Lemma run_cons (st : state) (c : Z) (rest : list Z) :
  run st (c :: rest) =
  '(st1, evs1) ← step st c; '(st2, evs2) ← run st1 rest; Some (st2, evs1 ++ evs2).
Proof. reflexivity. Qed.

Lemma run_single (st : state) (c : Z) :
  run st [c] = step st c.
Proof.
  simpl. destruct (step st c) as [[st1 evs1]|]; simpl; [|reflexivity].
  by rewrite app_nil_r.
Qed.

Lemma wf_init (m : mode_t) : wf (init m).
Proof.
  split.
  - apply length_replicate.
  - simpl. unfold RXBUF_SIZE. lia.
  - by left.
Qed.

Lemma step_slip_on (st : state) (c : Z) :
  slip_on st -> step st c = slip_byte st c.
Proof.
  unfold step. intros [-> | [[-> | ->] Hf]]; [reflexivity | |];
    destruct (Z.eqb_spec (flags st) 0); try contradiction; reflexivity.
Qed.

Lemma rxbuf_store_in (rx : list Z) (i c : Z) :
  0 <= i < RXBUF_SIZE ->
  rxbuf_store rx i c = Some (<[Z.to_nat i := c]> rx).
Proof.
  intros [H0 H1]. unfold rxbuf_store.
  destruct (Z.leb_spec 0 i); [|lia].
  destruct (Z.ltb_spec i RXBUF_SIZE); [|lia]. reflexivity.
Qed.

(** A byte that is neither marker is stored at [index], after [unescape]
    when an escape is open; reaching the end of the array reports the
    overflow and restarts at 0 with [flags = 2]. *)
Lemma slip_byte_data (st : state) (c : Z) :
  wf st -> c <> SLIP_ESC -> c <> SLIP_END ->
  slip_byte st c =
  let c' := if escaped st then unescape c else c in
  let rx := <[Z.to_nat (index st) := c']> (rxbuf st) in
  let lastc' := if escaped st then 0 else lastc st in
  if index st + 1 >=? RXBUF_SIZE
  then Some (mkState (mode st) 0 2 lastc' rx, [SlipOverflow])
  else Some (mkState (mode st) (index st + 1) (flags st) lastc' rx, []).
Proof.
  intros Hwf Hesc Hend. unfold slip_byte, escaped.
  destruct (Z.eqb_spec c SLIP_ESC); [contradiction|].
  destruct (Z.eqb_spec c SLIP_END); [contradiction|].
  rewrite rxbuf_store_in by apply Hwf. reflexivity.
Qed.

Lemma frame_buffer_store (rx : list Z) (i : Z) (c : Z) :
  0 <= i -> (Z.to_nat i < length rx)%nat ->
  take (Z.to_nat (i + 1)) (<[Z.to_nat i := c]> rx) = take (Z.to_nat i) rx ++ [c].
Proof.
  intros Hi Hlen.
  replace (Z.to_nat (i + 1)) with (S (Z.to_nat i)) by lia.
  rewrite (take_S_r _ _ c) by (by apply list_lookup_insert_eq).
  by rewrite take_insert_ge.
Qed.

(** ** A run of input without delimiter *)

Lemma escaped_cases (st : state) :
  wf st -> ((if escaped st then 0 else lastc st) =? SLIP_ESC) = false.
Proof.
  intros Hwf. unfold escaped.
  destruct (Z.eqb_spec (lastc st) SLIP_ESC) as [E|E]; [reflexivity|].
  by apply Z.eqb_neq.
Qed.

Lemma lastc_cases (st : state) :
  wf st -> (if escaped st then 0 else lastc st) = 0.
Proof.
  intros Hwf. unfold escaped.
  destruct (Z.eqb_spec (lastc st) SLIP_ESC) as [E|E]; [reflexivity|].
  destruct (wf_lastc _ Hwf); congruence.
Qed.

Lemma div_wrap (t : Z) :
  0 <= t -> Z.to_nat ((t + RXBUF_SIZE) / RXBUF_SIZE) = S (Z.to_nat (t / RXBUF_SIZE)).
Proof.
  intros Ht. unfold RXBUF_SIZE.
  replace (t + 2048) with (t + 1 * 2048) by lia.
  rewrite Z.div_add by lia.
  assert (0 <= t / 2048) by (apply Z.div_pos; lia). lia.
Qed.

Lemma mod_wrap (t : Z) :
  (t + RXBUF_SIZE) mod RXBUF_SIZE = t mod RXBUF_SIZE.
Proof.
  unfold RXBUF_SIZE.
  replace (t + 2048) with (t + 1 * 2048) by lia.
  apply Z.mod_add. lia.
Qed.

(** Every 2048th stored byte reports an overflow and restarts the index at
    0 with [flags = 2]; nothing is shown; below 2048 the buffer grows by
    [unstuff]. *)
Lemma run_payload (p : list Z) :
  forall st : state,
    wf st -> slip_on st -> Forall (fun c => c <> SLIP_END) p ->
    exists st',
      run st p
      = Some (st', replicate (Z.to_nat (filled st p / RXBUF_SIZE)) SlipOverflow)
      /\ mode st' = mode st
      /\ index st' = filled st p mod RXBUF_SIZE
      /\ flags st' = (if filled st p <? RXBUF_SIZE then flags st else 2)
      /\ escaped st' = pending (escaped st) p
      /\ (filled st p < RXBUF_SIZE ->
          frame_buffer st' = frame_buffer st ++ unstuff (escaped st) p)
      /\ wf st'.
Proof.
  induction p as [|c p IH]; intros st Hwf Hon Hp.
  - exists st. unfold filled. simpl. rewrite Z.add_0_r.
    pose proof (wf_index _ Hwf) as Hi.
    rewrite Z.div_small, Z.mod_small by lia.
    destruct (Z.ltb_spec (index st) RXBUF_SIZE); [|lia].
    repeat split; try reflexivity; try apply Hwf.
    intros _. by rewrite app_nil_r.
  - apply Forall_cons in Hp as [Hc Hp].
    pose proof (wf_index _ Hwf) as Hi.
    simpl run. rewrite (step_slip_on _ _ Hon).
    destruct (Z.eq_dec c SLIP_ESC) as [-> | Hesc].
    + (* the escape marker: only [lastc] changes *)
      set (st1 := mkState (mode st) (index st) (flags st) SLIP_ESC (rxbuf st)).
      assert (Hs : slip_byte st SLIP_ESC = Some (st1, [])) by reflexivity.
      rewrite Hs. simpl.
      assert (Hwf1 : wf st1) by (split; [apply Hwf | apply Hwf | by right]).
      destruct (IH st1 Hwf1 Hon Hp) as (st' & Hr & Hm & Hidx & Hfl & Hpe & Hbuf & Hwf').
      assert (Hfill : filled st (SLIP_ESC :: p) = filled st1 p) by reflexivity.
      exists st'. rewrite Hr, Hfill. simpl.
      repeat split; try assumption; apply Hwf'.
    + rewrite (slip_byte_data _ _ Hwf Hesc Hc). cbv zeta.
      assert (Hun : unstuff (escaped st) (c :: p)
                    = (if escaped st then unescape c else c) :: unstuff false p).
      { simpl. destruct (Z.eqb_spec c SLIP_ESC); [contradiction | reflexivity]. }
      assert (Hpend : pending (escaped st) (c :: p) = pending false p).
      { simpl. destruct (Z.eqb_spec c SLIP_ESC); [contradiction | reflexivity]. }
      assert (Hfill : filled st (c :: p)
                      = index st + 1 + Z.of_nat (length (unstuff false p))).
      { unfold filled. rewrite Hun. simpl length. lia. }
      destruct (Z.geb_spec (index st + 1) RXBUF_SIZE) as [Hov | Hin].
      * (* the last cell of the array: overflow *)
        match goal with |- context [Some (?s, [SlipOverflow])] => set (st1 := s) end.
        assert (Hwf1 : wf st1).
        { split; simpl; [rewrite length_insert; apply Hwf | unfold RXBUF_SIZE; lia |].
          left. by apply lastc_cases. }
        assert (Hon1 : slip_on st1).
        { destruct Hon as [Hm | [Hm _]]; [by left | right; split; [exact Hm | simpl; lia]]. }
        assert (He1 : escaped st1 = false) by (by apply escaped_cases).
        destruct (IH st1 Hwf1 Hon1 Hp) as (st' & Hr & Hm & Hidx & Hfl & Hpe & _ & Hwf').
        assert (Hf1 : filled st (c :: p) = filled st1 p + RXBUF_SIZE).
        { rewrite Hfill. unfold filled. rewrite He1. simpl index. lia. }
        assert (Hpos : 0 <= filled st1 p) by (unfold filled; simpl index; lia).
        exists st'. simpl. rewrite Hr. simpl.
        rewrite Hf1, div_wrap, mod_wrap by exact Hpos.
        destruct (Z.ltb_spec (filled st1 p + RXBUF_SIZE) RXBUF_SIZE); [lia|].
        repeat split; try assumption; try lia; try apply Hwf'.
        -- rewrite Hfl. by destruct (filled st1 p <? RXBUF_SIZE).
        -- rewrite Hpe, He1. simpl in Hpend |- *. by rewrite Hpend.
      * match goal with |- context [Some (?s, [])] => set (st1 := s) end.
        assert (Hwf1 : wf st1).
        { split; simpl; [rewrite length_insert; apply Hwf | lia |].
          left. by apply lastc_cases. }
        assert (He1 : escaped st1 = false) by (by apply escaped_cases).
        destruct (IH st1 Hwf1 Hon Hp) as (st' & Hr & Hm & Hidx & Hfl & Hpe & Hbuf & Hwf').
        assert (Hf1 : filled st (c :: p) = filled st1 p).
        { rewrite Hfill. unfold filled. rewrite He1. reflexivity. }
        exists st'. simpl. rewrite Hr. simpl. rewrite Hf1.
        repeat split; try assumption; try apply Hwf'.
        -- rewrite Hpe, He1. simpl in Hpend |- *. by rewrite Hpend.
        -- intros Hlt. rewrite (Hbuf Hlt), He1. simpl in Hun |- *. rewrite Hun.
           unfold frame_buffer at 1. simpl.
           rewrite frame_buffer_store
             by (rewrite ?(wf_len _ Hwf); unfold RXBUF_SIZE in *; lia).
           by rewrite <- app_assoc.
Qed.

(** ** The delimiter *)

Lemma step_end (st : state) :
  slip_mode (mode st) -> step st SLIP_END = slip_byte st SLIP_END.
Proof.
  unfold step. intros [-> | [-> | ->]]; [reflexivity | |];
    by rewrite andb_false_r.
Qed.

Lemma slip_byte_end_close (st : state) :
  0 < index st ->
  slip_byte st SLIP_END
  = Some (closed st,
          if flags st =? 2 then [] else packet_events (mode st) (frame_buffer st)).
Proof.
  intros Hi. unfold slip_byte, packet_events, closed, frame_buffer. simpl.
  destruct (Z.gtb_spec (index st) 0); [|lia].
  destruct (flags st =? 2); [reflexivity|].
  by destruct (mode_eqb (mode st) MODE_SLIP_HIDE).
Qed.

Lemma slip_byte_end_empty (st : state) :
  index st <= 0 -> slip_byte st SLIP_END = Some (toggled st, []).
Proof.
  intros Hi. unfold slip_byte, toggled. simpl.
  destruct (Z.gtb_spec (index st) 0); [lia | reflexivity].
Qed.

(** In a SLIP mode a byte either goes to the SLIP [switch] or, in the
    automatic and hiding modes with [flags] clear, is printed as text. *)
Lemma step_slip_cases (st : state) (c : Z) :
  slip_mode (mode st) ->
  step st c = slip_byte st c
  \/ (step st c = Some (st, [Putc c])
      /\ flags st = 0 /\ c <> SLIP_END /\ mode st <> MODE_SLIP).
Proof.
  unfold step. intros [E | [E | E]]; rewrite E; [by left | |];
    (destruct (Z.eqb_spec (flags st) 0); [|by left]);
    (destruct (Z.eqb_spec c SLIP_END); [by left|]);
    right; repeat split; auto; discriminate.
Qed.

Lemma slip_on_mode (st : state) : slip_on st -> slip_mode (mode st).
Proof. unfold slip_mode. intros [H | [[H | H] _]]; auto. Qed.

Lemma slip_on_toggled (st : state) :
  slip_mode (mode st) -> flags st = 0 -> slip_on (toggled st).
Proof.
  intros [H | H] Hf; [by left | right]. split; [exact H|].
  simpl. rewrite Hf. discriminate.
Qed.

(** ** A whole frame *)

(** From a state with an empty buffer, no flag and no open escape, a
    delimiter, a delimiter-free run whose buffer content is not empty and
    stays below the capacity, and a delimiter give one packet with that
    content and lead back to such a state. *)
Lemma run_frame (st : state) (p : list Z) :
  wf st -> slip_mode (mode st) ->
  index st = 0 -> flags st = 0 -> lastc st = 0 ->
  Forall (fun c => c <> SLIP_END) p ->
  (0 < length (unstuff false p))%nat ->
  Z.of_nat (length (unstuff false p)) < RXBUF_SIZE ->
  exists st',
    run st (SLIP_END :: p ++ [SLIP_END])
    = Some (st', packet_events (mode st) (unstuff false p))
    /\ mode st' = mode st /\ index st' = 0 /\ flags st' = 0 /\ lastc st' = 0
    /\ wf st'.
Proof.
  intros Hwf Hm Hi Hf Hl Hp Hpos Hlt.
  assert (Hwf1 : wf (toggled st)) by (split; apply Hwf).
  assert (He1 : escaped (toggled st) = false) by (unfold escaped; simpl; by rewrite Hl).
  assert (Hfill : filled (toggled st) p = Z.of_nat (length (unstuff false p))).
  { unfold filled. rewrite He1. simpl. lia. }
  destruct (run_payload p (toggled st) Hwf1 (slip_on_toggled _ Hm Hf) Hp)
    as (st1 & Hr & Hm1 & Hidx & Hfl & _ & Hbuf & Hwf').
  rewrite Hfill in Hr, Hidx, Hfl, Hbuf.
  rewrite Z.div_small in Hr by lia. rewrite Z.mod_small in Hidx by lia.
  destruct (Z.ltb_spec (Z.of_nat (length (unstuff false p))) RXBUF_SIZE); [|lia].
  specialize (Hbuf Hlt). rewrite He1 in Hbuf.
  assert (Hfb : frame_buffer (toggled st) = []).
  { unfold frame_buffer. simpl. rewrite Hi. reflexivity. }
  rewrite Hfb in Hbuf. simpl in Hbuf, Hfl.
  exists (closed st1).
  rewrite run_cons, (step_end _ Hm), slip_byte_end_empty by lia.
  cbn -[run]. rewrite run_app, Hr. cbn -[run].
  assert (Hm1' : slip_mode (mode st1)) by (by rewrite Hm1).
  rewrite run_single, (step_end _ Hm1'), slip_byte_end_close by lia.
  rewrite Hbuf, Hfl, Hf, Hm1. simpl.
  repeat split; try reflexivity; simpl; try apply Hwf';
    unfold RXBUF_SIZE; try lia; by left.
Qed.

Lemma unstuff_plain (p : list Z) :
  Forall (fun c => c <> SLIP_END /\ c <> SLIP_ESC) p ->
  unstuff false p = p.
Proof.
  induction 1 as [|c p [_ Hc] _ IH]; [reflexivity|]. simpl.
  destruct (Z.eqb_spec c SLIP_ESC); [contradiction|]. by rewrite IH.
Qed.

(** ** What a stream can put into packets *)

Lemma decoded_app (a b : list event) :
  decoded (a ++ b) = decoded a ++ decoded b.
Proof.
  induction a as [|e a IH]; [reflexivity|].
  destruct e; simpl; rewrite IH; try reflexivity. by rewrite app_assoc.
Qed.

Lemma decoded_packet_events (m : mode_t) (bytes : list Z) :
  (length (decoded (packet_events m bytes)) <= length bytes)%nat.
Proof.
  unfold packet_events. destruct (mode_eqb m MODE_SLIP_HIDE); simpl.
  - lia.
  - rewrite app_nil_r. lia.
Qed.

Lemma length_frame_buffer (st : state) :
  wf st -> Z.of_nat (length (frame_buffer st)) = index st.
Proof.
  intros Hwf. unfold frame_buffer.
  pose proof (wf_index _ Hwf). pose proof (wf_len _ Hwf).
  rewrite length_take_le; lia.
Qed.

Lemma data_count_app (a b : list Z) :
  data_count (a ++ b) = data_count a + data_count b.
Proof. induction a as [|c a IH]; simpl; [reflexivity | rewrite IH; lia]. Qed.

Lemma data_count_le (bytes : list Z) :
  0 <= data_count bytes <= Z.of_nat (length bytes).
Proof.
  induction bytes as [|c rest IH]; simpl; [lia|].
  destruct ((c =? SLIP_END) || (c =? SLIP_ESC)); lia.
Qed.

Lemma data_count_marker (bytes : list Z) :
  Exists (fun c => c = SLIP_END \/ c = SLIP_ESC) bytes ->
  data_count bytes < Z.of_nat (length bytes).
Proof.
  induction 1 as [c rest Hc | c rest _ IH]; simpl.
  - pose proof (data_count_le rest).
    destruct Hc as [-> | ->]; simpl; lia.
  - destruct ((c =? SLIP_END) || (c =? SLIP_ESC)); lia.
Qed.

(** Discharging [wf] of a state built from a well-formed one. *)
Ltac wf_from H :=
  split; simpl; rewrite ?length_insert;
  first [ apply H
        | unfold RXBUF_SIZE in *; lia
        | left; reflexivity
        | right; reflexivity
        | left; apply lastc_cases; exact H ].

(** One byte: the packet bytes shown plus the new index never exceed the
    old index plus one for a data byte. *)
Lemma step_decoded_bound (st : state) (c : Z) :
  wf st -> slip_mode (mode st) ->
  exists st' evs,
    step st c = Some (st', evs) /\ wf st' /\ mode st' = mode st
    /\ Z.of_nat (length (decoded evs)) + index st'
       <= index st + data_count [c].
Proof.
  intros Hwf Hm. pose proof (wf_index _ Hwf) as Hi.
  assert (Hslip : exists st' evs,
             slip_byte st c = Some (st', evs) /\ wf st' /\ mode st' = mode st
             /\ Z.of_nat (length (decoded evs)) + index st'
                <= index st + data_count [c]).
  { destruct (Z.eq_dec c SLIP_ESC) as [-> | Hesc].
    - eexists _, _. split; [reflexivity|].
      split; [wf_from Hwf|]. split; [reflexivity|]. simpl. lia.
    - destruct (Z.eq_dec c SLIP_END) as [-> | Hend].
      + destruct (Z.lt_ge_cases 0 (index st)) as [Hpos | Hzero].
        * rewrite slip_byte_end_close by exact Hpos.
          eexists _, _. split; [reflexivity|].
          split; [wf_from Hwf|]. split; [reflexivity|].
          pose proof (decoded_packet_events (mode st) (frame_buffer st)).
          pose proof (length_frame_buffer _ Hwf).
          destruct (flags st =? 2); simpl; lia.
        * rewrite slip_byte_end_empty by exact Hzero.
          eexists _, _. split; [reflexivity|].
          split; [wf_from Hwf|]. split; [reflexivity|]. simpl. lia.
      + rewrite (slip_byte_data _ _ Hwf Hesc Hend). cbv zeta.
        assert (Hw : data_count [c] = 1).
        { simpl. destruct (Z.eqb_spec c SLIP_END); [contradiction|].
          destruct (Z.eqb_spec c SLIP_ESC); [contradiction|]. reflexivity. }
        rewrite Hw.
        destruct (Z.geb_spec (index st + 1) RXBUF_SIZE);
          eexists _, _; (split; [reflexivity|]);
          (split; [wf_from Hwf|]); (split; [reflexivity|]); simpl; lia. }
  destruct (step_slip_cases st c Hm) as [-> | (-> & _)]; [exact Hslip|].
  exists st, [Putc c]. split; [reflexivity|]. split; [exact Hwf|].
  split; [reflexivity|]. pose proof (data_count_le [c]). simpl in *. lia.
Qed.

Lemma run_decoded_bound (bytes : list Z) :
  forall st : state,
    wf st -> slip_mode (mode st) ->
    exists st' evs,
      run st bytes = Some (st', evs) /\ wf st' /\ mode st' = mode st
      /\ Z.of_nat (length (decoded evs)) + index st'
         <= index st + data_count bytes.
Proof.
  induction bytes as [|c rest IH]; intros st Hwf Hm.
  - exists st, []. simpl. repeat split; try apply Hwf; lia.
  - destruct (step_decoded_bound st c Hwf Hm) as (st1 & evs1 & Hs & Hwf1 & Hm1 & Hb1).
    assert (Hm1' : slip_mode (mode st1)) by (by rewrite Hm1).
    destruct (IH st1 Hwf1 Hm1') as (st2 & evs2 & Hr & Hwf2 & Hm2 & Hb2).
    exists st2, (evs1 ++ evs2). rewrite run_cons, Hs. cbn -[run]. rewrite Hr.
    split; [reflexivity|]. split; [exact Hwf2|]. split; [congruence|].
    rewrite decoded_app, length_app. simpl in Hb1 |- *. lia.
Qed.

(** ** The index in every mode *)

Lemma index_limit_le (m : mode_t) : 1 <= index_limit m <= RXBUF_SIZE.
Proof. destruct m; unfold index_limit, RXBUF_SIZE, HCOLS, ICOLS; lia. Qed.

Lemma slip_byte_index (st : state) (c : Z) :
  length (rxbuf st) = Z.to_nat RXBUF_SIZE ->
  0 <= index st < RXBUF_SIZE ->
  index_limit (mode st) = RXBUF_SIZE ->
  exists st' evs,
    slip_byte st c = Some (st', evs)
    /\ index_ok st' /\ step_writes st st' /\ mode st' = mode st.
Proof.
  intros Hlen Hi Hlim. unfold slip_byte.
  destruct (c =? SLIP_ESC).
  { eexists _, _. split; [reflexivity|]. split; [split; simpl; [exact Hlen | lia]|].
    split; [|reflexivity]. left. simpl. auto. }
  destruct (c =? SLIP_END).
  { destruct (index st >? 0);
      eexists _, _; (split; [reflexivity|]);
      (split; [split; simpl; [exact Hlen | lia]|]);
      (split; [|reflexivity]); left; simpl; auto. }
  rewrite rxbuf_store_in by exact Hi. cbn -[Z.geb].
  destruct (Z.geb_spec (index st + 1) RXBUF_SIZE);
    eexists _, _; (split; [reflexivity|]);
    (split; [split; simpl; rewrite ?length_insert; [exact Hlen | lia]|]);
    (split; [|reflexivity]); right; eexists; simpl;
    (split; [reflexivity|]); (split; [exact Hi|]);
    (split; [intros Hm; rewrite Hm in Hlim; discriminate|]);
    rewrite Hlim;
    destruct (Z.geb_spec (index st + 1) RXBUF_SIZE); (reflexivity || lia).
Qed.

Lemma step_index (st : state) (c : Z) :
  index_ok st ->
  exists st' evs,
    step st c = Some (st', evs) /\ index_ok st' /\ step_writes st st'.
Proof.
  intros [Hlen Hi]. unfold step.
  destruct (mode st) eqn:Hm; simpl in Hi.
  - (* MODE_START_DATE *)
    eexists _, _. split; [reflexivity|].
    split; [split; simpl; [exact Hlen | destruct (c =? 10); simpl; lia]|].
    left. simpl. auto.
  - (* MODE_DATE *)
    eexists _, _. split; [reflexivity|].
    split; [split; simpl; [exact Hlen | destruct (c =? 10); simpl; lia]|].
    left. simpl. auto.
  - (* MODE_START_TEXT *)
    eexists _, _. split; [reflexivity|].
    split; [split; [exact Hlen | rewrite Hm; exact Hi]|]. left. auto.
  - (* MODE_TEXT *)
    eexists _, _. split; [reflexivity|].
    split; [split; [exact Hlen | rewrite Hm; exact Hi]|]. left. auto.
  - (* MODE_INT *)
    destruct (Z.geb_spec (index st + 1) ICOLS);
      eexists _, _; (split; [reflexivity|]);
      (split; [split; simpl; [exact Hlen | unfold ICOLS in *; lia]|]);
      left; simpl; auto.
  - (* MODE_HEX *)
    rewrite rxbuf_store_in by (unfold HCOLS, RXBUF_SIZE in *; lia).
    cbn -[Z.geb].
    destruct (Z.geb_spec (index st + 1) HCOLS);
      eexists _, _; (split; [reflexivity|]);
      (split; [split; simpl; rewrite ?length_insert;
               [exact Hlen | unfold HCOLS in *; lia]|]);
      right; eexists; simpl; (split; [reflexivity|]);
      (split; [unfold HCOLS, RXBUF_SIZE in *; lia|]);
      (split; [intros _; lia|]);
      rewrite Hm; simpl;
      destruct (Z.geb_spec (index st + 1) HCOLS); (reflexivity || lia).
  - (* MODE_SLIP_AUTO *)
    destruct ((flags st =? 0) && negb (c =? SLIP_END)).
    + eexists _, _. split; [reflexivity|].
      split; [split; [exact Hlen | rewrite Hm; exact Hi]|]. left. auto.
    + destruct (slip_byte_index st c Hlen Hi) as (st' & evs & Hs & Hok & Hw & _);
        [by rewrite Hm | eauto].
  - (* MODE_SLIP *)
    destruct (slip_byte_index st c Hlen Hi) as (st' & evs & Hs & Hok & Hw & _);
      [by rewrite Hm | eauto].
  - (* MODE_SLIP_HIDE *)
    destruct ((flags st =? 0) && negb (c =? SLIP_END)).
    + eexists _, _. split; [reflexivity|].
      split; [split; [exact Hlen | rewrite Hm; exact Hi]|]. left. auto.
    + destruct (slip_byte_index st c Hlen Hi) as (st' & evs & Hs & Hok & Hw & _);
        [by rewrite Hm | eauto].
Qed.

Lemma run_index (bytes : list Z) :
  forall st : state,
    index_ok st -> exists st' evs, run st bytes = Some (st', evs) /\ index_ok st'.
Proof.
  induction bytes as [|c rest IH]; intros st Hok.
  - by exists st, [].
  - destruct (step_index st c Hok) as (st1 & evs1 & Hs & Hok1 & _).
    destruct (IH st1 Hok1) as (st2 & evs2 & Hr & Hok2).
    exists st2, (evs1 ++ evs2). rewrite run_cons, Hs. cbn -[run]. by rewrite Hr.
Qed.

Lemma main_loop_index (chunks : list (list Z)) :
  forall st : state,
    index_ok st ->
    exists st' evs, main_loop st chunks = Some (st', evs) /\ index_ok st'.
Proof.
  induction chunks as [|bytes rest IH]; intros st Hok.
  - by exists st, [].
  - destruct (run_index bytes st Hok) as (st1 & evs1 & Hr & Hok1).
    destruct (IH st1 Hok1) as (st2 & evs2 & Hl & Hok2).
    eexists st2, _. simpl. unfold process_chunk. rewrite Hr. cbn -[main_loop].
    rewrite Hl. simpl. split; [reflexivity | exact Hok2].
Qed.

Lemma index_ok_init (m : mode_t) : index_ok (init m).
Proof.
  split; [apply length_replicate|]. simpl.
  pose proof (index_limit_le m). lia.
Qed.

Lemma length_unstuff (esc : bool) (p : list Z) :
  (length (unstuff esc p) <= length p)%nat.
Proof.
  revert esc. induction p as [|c p IH]; intros esc; simpl; [lia|].
  destruct (c =? SLIP_ESC); simpl.
  - specialize (IH true). lia.
  - specialize (IH false). lia.
Qed.

(** A delimited run that leaves nothing in the buffer shows nothing. *)
Lemma run_frame_empty (st : state) (p : list Z) :
  wf st -> slip_mode (mode st) ->
  index st = 0 -> flags st = 0 -> lastc st = 0 ->
  Forall (fun c => c <> SLIP_END) p ->
  unstuff false p = [] ->
  exists st', run st (SLIP_END :: p ++ [SLIP_END]) = Some (st', []).
Proof.
  intros Hwf Hm Hi Hf Hl Hp Hnil.
  assert (Hwf1 : wf (toggled st)) by (split; apply Hwf).
  assert (He1 : escaped (toggled st) = false) by (unfold escaped; simpl; by rewrite Hl).
  assert (Hfill : filled (toggled st) p = 0).
  { unfold filled. rewrite He1, Hnil. simpl. lia. }
  destruct (run_payload p (toggled st) Hwf1 (slip_on_toggled _ Hm Hf) Hp)
    as (st1 & Hr & Hm1 & Hidx & _).
  rewrite Hfill in Hr, Hidx.
  change (0 mod RXBUF_SIZE) with 0 in Hidx.
  change (replicate (Z.to_nat (0 / RXBUF_SIZE)) SlipOverflow) with (@nil event) in Hr.
  assert (Hm1' : slip_mode (mode st1)) by (by rewrite Hm1).
  exists (toggled st1).
  rewrite run_cons, (step_end _ Hm), slip_byte_end_empty by lia.
  cbn -[run]. rewrite run_app, Hr. cbn -[run].
  rewrite run_single, (step_end _ Hm1'), slip_byte_end_empty by lia.
  reflexivity.
Qed.

Lemma data_count_wrapped (B : list Z) :
  data_count (SLIP_END :: B ++ [SLIP_END]) = data_count B.
Proof.
  change (data_count (SLIP_END :: B ++ [SLIP_END]))
    with (0 + data_count (B ++ [SLIP_END])).
  rewrite data_count_app. change (data_count [SLIP_END]) with 0. lia.
Qed.

Lemma send_chunk_slip (B : list Z) :
  B <> [] -> send_chunk MODE_SLIP B = SLIP_END :: B ++ [SLIP_END].
Proof. destruct B; [contradiction | reflexivity]. Qed.

(** ** The round trip through the transmit path *)

(** C5. For every byte sequence [B] without delimiter and without escape
    byte, wrapping [B] for the channel and decoding the result from the
    initial state gives back exactly [B]: the decoded content is [B], as one
    packet when [B] is not empty (nothing is sent for an empty read), and
    the decoder is back in its initial condition.  [B] is one read of
    standard input, at most [BUFSIZE] bytes. *)
Theorem encode_decode_plain (B : list Z) :
  Forall (fun c => c <> SLIP_END /\ c <> SLIP_ESC) B ->
  Z.of_nat (length B) <= BUFSIZE ->
  exists st evs,
    run (init MODE_SLIP) (send_chunk MODE_SLIP B) = Some (st, evs)
    /\ decoded evs = B
    /\ (B <> [] -> evs = [Packet B])
    /\ index st = 0 /\ flags st = 0 /\ lastc st = 0.
Proof.
  intros Hplain Hlen.
  destruct (decide (B = [])) as [-> | Hne].
  { exists (init MODE_SLIP), []. simpl. repeat split; try reflexivity. congruence. }
  assert (Hp : Forall (fun c => c <> SLIP_END) B)
    by (eapply Forall_impl; [exact Hplain | by intros c [? _]]).
  pose proof (unstuff_plain B Hplain) as Hun.
  destruct (run_frame (init MODE_SLIP) B (wf_init _)) as (st & Hr & _ & Hi & Hf & Hl & _);
    try reflexivity; try (by left); try exact Hp.
  - rewrite Hun. destruct B; [contradiction | simpl; lia].
  - rewrite Hun. unfold BUFSIZE, RXBUF_SIZE in *. lia.
  - rewrite Hun in Hr. exists st, [Packet B].
    rewrite send_chunk_slip by exact Hne.
    split; [exact Hr|]. simpl. rewrite app_nil_r. auto.
Qed.

Lemma encode_decode_plain_witness :
  exists st evs,
    run (init MODE_SLIP) (send_chunk MODE_SLIP [65; 66; 67]) = Some (st, evs)
    /\ decoded evs = [65; 66; 67]
    /\ ([65; 66; 67] <> [] -> evs = [Packet [65; 66; 67]])
    /\ index st = 0 /\ flags st = 0 /\ lastc st = 0.
Proof.
  apply (encode_decode_plain [65; 66; 67]).
  - repeat constructor; unfold SLIP_END, SLIP_ESC; lia.
  - unfold BUFSIZE. simpl. lia.
Defined.

(** C6. The bytes C0 41 42 DB DC 43 C0, decoded from the initial state,
    give exactly one packet, with the four bytes 41 42 C0 43: the pair
    DB DC stands for the delimiter value C0.  This holds in the SLIP-only
    and in the automatic mode, and the packet is shown as one SLIP: line. *)
Theorem decode_escaped_delimiter_scenario :
  (exists st,
      run (init MODE_SLIP) [192; 65; 66; 219; 220; 67; 192]
      = Some (st, [Packet [65; 66; 192; 67]])
      /\ index st = 0 /\ flags st = 0 /\ lastc st = 0)
  /\ (exists st,
         run (init MODE_SLIP_AUTO) [192; 65; 66; 219; 220; 67; 192]
         = Some (st, [Packet [65; 66; 192; 67]]))
  /\ stdout_of "" [Packet [65; 66; 192; 67]]
     = (carriage_return
        ++ "SLIP: 4142C043                                      AB.C"
        ++ line_feed)%string.
Proof.
  split; [|split].
  - eexists. split; [vm_compute; reflexivity|]. by vm_compute.
  - eexists. vm_compute. reflexivity.
  - vm_compute. reflexivity.
Qed.

(** C1, as the code has it.  The transmit path wraps a read in delimiters
    and escapes nothing, so for every read [B] that holds a delimiter or an
    escape byte the decoded content of the wrapped bytes is strictly
    shorter than [B] and the result is never the packet [B]; when [B]
    holds escape bytes but no delimiter, the decoder gives the one packet
    [unstuff false B] ([B] with every escape marker taken out and the byte
    after it put through [unescape]), or no packet when that is empty. *)
Theorem encode_decode_marked (B : list Z) :
  Exists (fun c => c = SLIP_END \/ c = SLIP_ESC) B ->
  Z.of_nat (length B) <= BUFSIZE ->
  exists st evs,
    run (init MODE_SLIP) (send_chunk MODE_SLIP B) = Some (st, evs)
    /\ (length (decoded evs) < length B)%nat
    /\ evs <> [Packet B]
    /\ (Forall (fun c => c <> SLIP_END) B ->
        evs = match unstuff false B with
              | [] => []
              | bytes => [Packet bytes]
              end).
Proof.
  intros Hmark Hlen.
  assert (Hne : B <> []) by (intros ->; by apply Exists_nil in Hmark).
  rewrite send_chunk_slip by exact Hne.
  destruct (run_decoded_bound (SLIP_END :: B ++ [SLIP_END]) (init MODE_SLIP)
              (wf_init _)) as (st & evs & Hr & Hwf & _ & Hb); [by left|].
  assert (Hshort : (length (decoded evs) < length B)%nat).
  { pose proof (data_count_marker B Hmark). pose proof (wf_index _ Hwf).
    rewrite data_count_wrapped in Hb. simpl in Hb. lia. }
  exists st, evs. split; [exact Hr|]. split; [exact Hshort|]. split.
  - intros ->. simpl in Hshort. rewrite app_nil_r in Hshort. lia.
  - intros Hp. destruct (unstuff false B) as [|b bytes] eqn:Hun.
    + destruct (run_frame_empty (init MODE_SLIP) B (wf_init _)) as (st' & Hr');
        try reflexivity; try (by left); try assumption.
      congruence.
    + destruct (run_frame (init MODE_SLIP) B (wf_init _)) as (st' & Hr' & _);
        try reflexivity; try (by left); try assumption.
      * rewrite Hun. simpl. lia.
      * pose proof (length_unstuff false B).
        unfold BUFSIZE, RXBUF_SIZE in *. lia.
      * rewrite Hun in Hr'.
        change (packet_events (mode (init MODE_SLIP)) (b :: bytes))
          with [Packet (b :: bytes)] in Hr'.
        congruence.
Qed.

Lemma encode_decode_marked_witness :
  exists st evs,
    run (init MODE_SLIP) (send_chunk MODE_SLIP [219; 220; 65]) = Some (st, evs)
    /\ (length (decoded evs) < length [219; 220; 65])%nat
    /\ evs <> [Packet [219; 220; 65]]
    /\ (Forall (fun c => c <> SLIP_END) [219; 220; 65] ->
        evs = match unstuff false [219; 220; 65] with
              | [] => []
              | bytes => [Packet bytes]
              end).
Proof.
  apply (encode_decode_marked [219; 220; 65]).
  - apply Exists_cons_hd. right. reflexivity.
  - unfold BUFSIZE. simpl. lia.
Defined.

(** C1 as stated fails: the read DB DC holds an escape byte, and what is
    decoded from its wrapping is the one-byte packet C0, not DB DC. *)
Lemma encode_decode_marked_counterexample :
  option_map snd (run (init MODE_SLIP) (send_chunk MODE_SLIP [219; 220]))
  = Some [Packet [192]]
  /\ [Packet [192]] <> [Packet [219; 220]].
Proof. split; [vm_compute; reflexivity | discriminate]. Qed.

(** C2, as the code has it.  When the bytes a frame puts into the buffer
    reach the capacity 2048, the decoder reports the overflow (once for
    every 2048 bytes) and sets [flags = 2]; the bytes that follow are still
    stored, from index 0 on, and not dropped; nothing of the frame is ever
    shown, neither before nor at the closing delimiter; and when that
    delimiter finds the buffer non-empty, [index], [flags] and [lastc] are
    all reset, so that the next delimited frame is decoded and shown as
    usual. *)
Theorem overflow_suppresses_frame (st : state) (p : list Z) :
  wf st -> slip_on st -> Forall (fun c => c <> SLIP_END) p ->
  RXBUF_SIZE <= filled st p ->
  exists st1 st2,
    run st p
    = Some (st1, replicate (Z.to_nat (filled st p / RXBUF_SIZE)) SlipOverflow)
    /\ (1 <= Z.to_nat (filled st p / RXBUF_SIZE))%nat
    /\ flags st1 = 2
    /\ index st1 = filled st p mod RXBUF_SIZE
    /\ (forall c,
          c <> SLIP_END -> c <> SLIP_ESC -> index st1 + 1 < RXBUF_SIZE ->
          exists st',
            step st1 c = Some (st', [])
            /\ index st' = index st1 + 1 /\ flags st' = 2
            /\ rxbuf st' !! Z.to_nat (index st1)
               = Some (if escaped st1 then unescape c else c))
    /\ run st (p ++ [SLIP_END])
       = Some (st2, replicate (Z.to_nat (filled st p / RXBUF_SIZE)) SlipOverflow)
    /\ (0 < index st1 ->
        index st2 = 0 /\ flags st2 = 0 /\ lastc st2 = 0
        /\ forall q,
            Forall (fun c => c <> SLIP_END) q ->
            (0 < length (unstuff false q))%nat ->
            Z.of_nat (length (unstuff false q)) < RXBUF_SIZE ->
            exists st3,
              run st2 (SLIP_END :: q ++ [SLIP_END])
              = Some (st3, packet_events (mode st) (unstuff false q))).
Proof.
  intros Hwf Hon Hp Hfull.
  destruct (run_payload p st Hwf Hon Hp) as (st1 & Hr & Hm & Hidx & Hfl & _ & _ & Hwf1).
  destruct (Z.ltb_spec (filled st p) RXBUF_SIZE) as [Hlt | _]; [lia|].
  assert (Hon1 : slip_on st1).
  { destruct Hon as [E | [E _]]; [left | right]; rewrite Hm; [exact E|].
    split; [exact E | lia]. }
  pose proof (slip_on_mode _ Hon1) as Hmode1.
  assert (Hn : 1 <= filled st p / RXBUF_SIZE).
  { apply Z.div_le_lower_bound; unfold RXBUF_SIZE in *; lia. }
  assert (Hclose : exists st2,
             step st1 SLIP_END = Some (st2, [])
             /\ (0 < index st1 -> st2 = closed st1)).
  { rewrite (step_end _ Hmode1).
    destruct (Z.lt_ge_cases 0 (index st1)) as [Hpos | Hzero].
    - rewrite slip_byte_end_close, Hfl by exact Hpos. eauto.
    - rewrite slip_byte_end_empty by exact Hzero.
      eexists. split; [reflexivity | lia]. }
  destruct Hclose as (st2 & Hs2 & Hst2).
  exists st1, st2. split; [exact Hr|]. split; [lia|]. split; [exact Hfl|].
  split; [exact Hidx|]. split; [|split].
  - intros c Hend Hesc Hroom.
    rewrite (step_slip_on _ _ Hon1), (slip_byte_data _ _ Hwf1 Hesc Hend). cbv zeta.
    destruct (Z.geb_spec (index st1 + 1) RXBUF_SIZE); [lia|].
    eexists. split; [reflexivity|]. simpl. repeat split; try assumption.
    apply list_lookup_insert_eq.
    pose proof (wf_index _ Hwf1). rewrite (wf_len _ Hwf1). lia.
  - rewrite run_app, Hr. cbn -[run]. rewrite run_single, Hs2. simpl.
    by rewrite app_nil_r.
  - intros Hpos. rewrite (Hst2 Hpos).
    split; [reflexivity|]. split; [reflexivity|]. split; [reflexivity|].
    intros q Hq Hq0 Hq1.
    destruct (run_frame (closed st1) q) as (st3 & Hr3 & _);
      try reflexivity; try assumption.
    + wf_from Hwf1.
    + exists st3. rewrite Hr3. cbn [closed mode]. by rewrite Hm.
Qed.

Lemma overflow_suppresses_frame_witness :
  exists st1 st2,
    run (init MODE_SLIP) (replicate 2049%nat 65%Z)
    = Some (st1, replicate
                   (Z.to_nat (filled (init MODE_SLIP) (replicate 2049%nat 65%Z) / RXBUF_SIZE))
                   SlipOverflow)
    /\ (1 <= Z.to_nat (filled (init MODE_SLIP) (replicate 2049%nat 65%Z) / RXBUF_SIZE))%nat
    /\ flags st1 = 2
    /\ index st1 = filled (init MODE_SLIP) (replicate 2049%nat 65%Z) mod RXBUF_SIZE
    /\ (forall c,
          c <> SLIP_END -> c <> SLIP_ESC -> index st1 + 1 < RXBUF_SIZE ->
          exists st',
            step st1 c = Some (st', [])
            /\ index st' = index st1 + 1 /\ flags st' = 2
            /\ rxbuf st' !! Z.to_nat (index st1)
               = Some (if escaped st1 then unescape c else c))
    /\ run (init MODE_SLIP) (replicate 2049%nat 65%Z ++ [SLIP_END])
       = Some (st2, replicate
                      (Z.to_nat (filled (init MODE_SLIP) (replicate 2049%nat 65%Z) / RXBUF_SIZE))
                      SlipOverflow)
    /\ (0 < index st1 ->
        index st2 = 0 /\ flags st2 = 0 /\ lastc st2 = 0
        /\ forall q,
            Forall (fun c => c <> SLIP_END) q ->
            (0 < length (unstuff false q))%nat ->
            Z.of_nat (length (unstuff false q)) < RXBUF_SIZE ->
            exists st3,
              run st2 (SLIP_END :: q ++ [SLIP_END])
              = Some (st3, packet_events (mode (init MODE_SLIP)) (unstuff false q))).
Proof.
  apply (overflow_suppresses_frame (init MODE_SLIP) (replicate 2049%nat 65%Z)).
  - apply wf_init.
  - left. reflexivity.
  - apply Forall_replicate. unfold SLIP_END. lia.
  - vm_compute. discriminate.
Defined.

(** C2 as stated fails where it has the bytes after an overflow dropped:
    after 2048 bytes have overflowed the buffer ([flags = 2], index back at
    0) the next byte 42 is stored at index 0 and the index moves to 1. *)
Lemma overflow_suppresses_frame_counterexample :
  option_map (fun r => (flags r.1, index r.1, rxbuf r.1 !! 0%nat, r.2))
    (run (init MODE_SLIP) (SLIP_END :: replicate 2048%nat 65%Z))
  = Some (2, 0, Some 65, [SlipOverflow])
  /\ option_map (fun r => (flags r.1, index r.1, rxbuf r.1 !! 0%nat, r.2))
       (run (init MODE_SLIP) (SLIP_END :: replicate 2048%nat 65%Z ++ [66]))
     = Some (2, 1, Some 66, [SlipOverflow]).
Proof. split; vm_compute; reflexivity. Qed.

(** A packet that is shown is never empty. *)
Lemma step_packets_nonempty (st st' : state) (c : Z) (evs : list event) :
  wf st -> slip_mode (mode st) -> step st c = Some (st', evs) ->
  Forall (fun e => e <> Packet []) evs.
Proof.
  intros Hwf Hm Hs.
  destruct (step_slip_cases st c Hm) as [E | (E & _)]; rewrite E in Hs.
  - destruct (Z.eq_dec c SLIP_ESC) as [-> | Hesc].
    { injection Hs as _ <-. constructor. }
    destruct (Z.eq_dec c SLIP_END) as [-> | Hend].
    + destruct (Z.lt_ge_cases 0 (index st)) as [Hpos | Hzero].
      * rewrite slip_byte_end_close in Hs by exact Hpos.
        injection Hs as _ <-.
        destruct (flags st =? 2); [constructor|].
        unfold packet_events. destruct (mode_eqb (mode st) MODE_SLIP_HIDE);
          constructor; [|constructor].
        intros Heq. injection Heq as Heq.
        pose proof (length_frame_buffer _ Hwf) as Hlen.
        rewrite Heq in Hlen. simpl in Hlen. lia.
      * rewrite slip_byte_end_empty in Hs by exact Hzero.
        injection Hs as _ <-. constructor.
    + rewrite (slip_byte_data _ _ Hwf Hesc Hend) in Hs. cbv zeta in Hs.
      destruct (index st + 1 >=? RXBUF_SIZE); injection Hs as _ <-;
        repeat constructor; discriminate.
  - injection Hs as _ <-. repeat constructor. discriminate.
Qed.

Lemma run_packets_nonempty (bytes : list Z) :
  forall st : state,
    wf st -> slip_mode (mode st) ->
    exists st' evs,
      run st bytes = Some (st', evs) /\ Forall (fun e => e <> Packet []) evs.
Proof.
  induction bytes as [|c rest IH]; intros st Hwf Hm.
  - exists st, []. split; [reflexivity | constructor].
  - destruct (step_decoded_bound st c Hwf Hm) as (st1 & evs1 & Hs & Hwf1 & Hm1 & _).
    assert (Hm1' : slip_mode (mode st1)) by (by rewrite Hm1).
    destruct (IH st1 Hwf1 Hm1') as (st2 & evs2 & Hr & Hne).
    exists st2, (evs1 ++ evs2). rewrite run_cons, Hs. cbn -[run]. rewrite Hr.
    split; [reflexivity|]. apply Forall_app. split; [|exact Hne].
    by apply (step_packets_nonempty st st1 c).
Qed.

(** C3. In the SLIP modes a delimiter that finds the buffer non-empty
    closes the frame whatever [flags] says: index, flags and escape are
    reset and the buffered bytes go out as one packet (nothing goes out for
    an overflowed frame, and the hiding mode shows no packet); a delimiter
    that finds the buffer empty only toggles [flags] and prints nothing.
    Hence a delimiter that directly follows a delimiter prints nothing, and
    no input stream ever produces an empty packet. *)
Theorem delimiter_closes_or_toggles (st : state) :
  slip_mode (mode st) ->
  (0 < index st ->
   step st SLIP_END
   = Some (closed st,
           if flags st =? 2 then []
           else packet_events (mode st) (frame_buffer st)))
  /\ (index st <= 0 -> step st SLIP_END = Some (toggled st, []))
  /\ (exists st1 evs1,
         step st SLIP_END = Some (st1, evs1)
         /\ step st1 SLIP_END = Some (toggled st1, []))
  /\ (wf st ->
      forall bytes, exists st' evs,
        run st bytes = Some (st', evs)
        /\ Forall (fun e => e <> Packet []) evs).
Proof.
  intros Hm. split; [|split; [|split]].
  - intros Hpos. by rewrite (step_end _ Hm), slip_byte_end_close.
  - intros Hzero. by rewrite (step_end _ Hm), slip_byte_end_empty.
  - rewrite (step_end _ Hm).
    destruct (Z.lt_ge_cases 0 (index st)) as [Hpos | Hzero].
    + rewrite slip_byte_end_close by exact Hpos. eexists _, _.
      split; [reflexivity|].
      rewrite step_end by exact Hm. by rewrite slip_byte_end_empty.
    + rewrite slip_byte_end_empty by exact Hzero. eexists _, _.
      split; [reflexivity|].
      rewrite step_end by exact Hm. by rewrite slip_byte_end_empty.
  - intros Hwf bytes. by apply run_packets_nonempty.
Qed.

Lemma delimiter_closes_or_toggles_witness :
  (0 < index (init MODE_SLIP_AUTO) ->
   step (init MODE_SLIP_AUTO) SLIP_END
   = Some (closed (init MODE_SLIP_AUTO),
           if flags (init MODE_SLIP_AUTO) =? 2 then []
           else packet_events (mode (init MODE_SLIP_AUTO))
                  (frame_buffer (init MODE_SLIP_AUTO))))
  /\ (index (init MODE_SLIP_AUTO) <= 0 ->
      step (init MODE_SLIP_AUTO) SLIP_END = Some (toggled (init MODE_SLIP_AUTO), []))
  /\ (exists st1 evs1,
         step (init MODE_SLIP_AUTO) SLIP_END = Some (st1, evs1)
         /\ step st1 SLIP_END = Some (toggled st1, []))
  /\ (wf (init MODE_SLIP_AUTO) ->
      forall bytes, exists st' evs,
        run (init MODE_SLIP_AUTO) bytes = Some (st', evs)
        /\ Forall (fun e => e <> Packet []) evs).
Proof.
  apply (delimiter_closes_or_toggles (init MODE_SLIP_AUTO)).
  right. left. reflexivity.
Defined.

(** What one byte does to the pending escape: the escape marker sets it, a
    byte stored in the buffer and a delimiter that closes a frame clear it,
    and a delimiter that finds the buffer empty leaves it as it was. *)
Lemma lastc_after_byte (st : state) (c : Z) :
  wf st -> slip_on st ->
  exists st' evs,
    step st c = Some (st', evs)
    /\ lastc st' = (if c =? SLIP_ESC then SLIP_ESC
                    else if (c =? SLIP_END) && (index st <=? 0) then lastc st
                    else 0).
Proof.
  intros Hwf Hon. rewrite (step_slip_on _ _ Hon).
  destruct (Z.eqb_spec c SLIP_ESC) as [-> | Hesc].
  { eexists _, _. split; reflexivity. }
  destruct (Z.eqb_spec c SLIP_END) as [-> | Hend].
  - destruct (Z.leb_spec (index st) 0) as [Hzero | Hpos].
    + rewrite slip_byte_end_empty by exact Hzero. eexists _, _. split; reflexivity.
    + rewrite slip_byte_end_close by exact Hpos. eexists _, _. split; reflexivity.
  - rewrite (slip_byte_data _ _ Hwf Hesc Hend). cbv zeta.
    destruct (index st + 1 >=? RXBUF_SIZE); eexists _, _;
      (split; [reflexivity|]); simpl; by apply lastc_cases.
Qed.

(** C4 fails on the code.  From the initial state of the SLIP-only mode the
    bytes DB C0 leave [lastc] at DB: the delimiter finds the buffer empty,
    toggles [flags] and does not clear the escape.  The escape then reaches
    into the next frame: DC 41 C0 is shown as the packet C0 41. *)
Theorem escape_survives_empty_delimiter :
  option_map (fun r => (lastc r.1, index r.1, r.2))
    (run (init MODE_SLIP) [SLIP_ESC; SLIP_END])
  = Some (SLIP_ESC, 0, [])
  /\ option_map snd
       (run (init MODE_SLIP) [SLIP_ESC; SLIP_END; SLIP_ESC_END; 65; SLIP_END])
     = Some [Packet [SLIP_END; 65]].
Proof. split; vm_compute; reflexivity. Qed.

(** C8, as the code has it.  When the escape marker is followed by a byte
    that is neither of the two escape targets DC and DD and is not itself
    the delimiter or the escape marker, nothing fails: the byte is stored
    unchanged at [index], the escape is cleared, and the decoder goes on
    exactly as if the byte had come without the marker before it. *)
Theorem malformed_escape_passes_through (st : state) (c : Z) :
  wf st -> slip_on st -> escaped st = true ->
  c <> SLIP_ESC_END -> c <> SLIP_ESC_ESC ->
  c <> SLIP_END -> c <> SLIP_ESC ->
  exists st' evs,
    step st c = Some (st', evs)
    /\ rxbuf st' = <[Z.to_nat (index st) := c]> (rxbuf st)
    /\ rxbuf st' !! Z.to_nat (index st) = Some c
    /\ lastc st' = 0
    /\ (index st + 1 < RXBUF_SIZE ->
        evs = [] /\ index st' = index st + 1 /\ flags st' = flags st
        /\ frame_buffer st' = frame_buffer st ++ [c])
    /\ (RXBUF_SIZE <= index st + 1 ->
        evs = [SlipOverflow] /\ index st' = 0 /\ flags st' = 2)
    /\ step (unescaped st) c = Some (st', evs).
Proof.
  intros Hwf Hon Hpend Hc1 Hc2 Hend Hesc.
  pose proof (wf_index _ Hwf) as Hi. pose proof (wf_len _ Hwf) as Hlen.
  assert (Hun : unescape c = c).
  { unfold unescape. destruct (Z.eqb_spec c SLIP_ESC_END); [contradiction|].
    destruct (Z.eqb_spec c SLIP_ESC_ESC); [contradiction | reflexivity]. }
  assert (Hwf0 : wf (unescaped st)) by wf_from Hwf.
  assert (Hon0 : slip_on (unescaped st)) by exact Hon.
  rewrite (step_slip_on _ _ Hon), (step_slip_on _ _ Hon0).
  rewrite (slip_byte_data _ _ Hwf Hesc Hend), (slip_byte_data _ _ Hwf0 Hesc Hend).
  cbv zeta. rewrite Hpend, Hun.
  change (escaped (unescaped st)) with false. cbn [unescaped mode index flags lastc rxbuf].
  destruct (Z.geb_spec (index st + 1) RXBUF_SIZE) as [Hov | Hin];
    eexists _, _; (split; [reflexivity|]); cbn [mode index flags lastc rxbuf];
    (split; [reflexivity|]);
    (split; [apply list_lookup_insert_eq; lia|]);
    (split; [reflexivity|]);
    (split; [intros Hroom | split; [intros Hfull | reflexivity]]);
    try lia; repeat split.
  unfold frame_buffer. cbn [mode index flags lastc rxbuf].
  apply frame_buffer_store; lia.
Qed.

Lemma malformed_escape_passes_through_witness :
  exists st' evs,
    step (mkState MODE_SLIP 0 1 SLIP_ESC (rxbuf (init MODE_SLIP))) 65
    = Some (st', evs)
    /\ rxbuf st' = <[Z.to_nat 0 := 65]> (rxbuf (init MODE_SLIP))
    /\ rxbuf st' !! Z.to_nat 0 = Some 65
    /\ lastc st' = 0
    /\ (0 + 1 < RXBUF_SIZE ->
        evs = [] /\ index st' = 0 + 1 /\ flags st' = 1
        /\ frame_buffer st'
           = frame_buffer (mkState MODE_SLIP 0 1 SLIP_ESC (rxbuf (init MODE_SLIP)))
             ++ [65])
    /\ (RXBUF_SIZE <= 0 + 1 ->
        evs = [SlipOverflow] /\ index st' = 0 /\ flags st' = 2)
    /\ step (unescaped (mkState MODE_SLIP 0 1 SLIP_ESC (rxbuf (init MODE_SLIP)))) 65
       = Some (st', evs).
Proof.
  apply (malformed_escape_passes_through
           (mkState MODE_SLIP 0 1 SLIP_ESC (rxbuf (init MODE_SLIP))) 65).
  - split; [apply length_replicate | simpl; unfold RXBUF_SIZE; lia | right; reflexivity].
  - left. reflexivity.
  - reflexivity.
  - unfold SLIP_ESC_END. lia.
  - unfold SLIP_ESC_ESC. lia.
  - unfold SLIP_END. lia.
  - unfold SLIP_ESC. lia.
Defined.

(** C8 as stated fails for the two markers, which are not escape targets
    either: after 41 DB a second DB is not stored (the buffer still holds
    41 alone and the escape stays open), and after 41 DB the delimiter C0
    is not stored but closes the frame 41. *)
Lemma malformed_escape_passes_through_counterexample :
  option_map (fun r => (frame_buffer r.1, lastc r.1, r.2))
    (run (init MODE_SLIP) [65; SLIP_ESC; SLIP_ESC])
  = Some ([65], SLIP_ESC, [])
  /\ option_map (fun r => (frame_buffer r.1, lastc r.1, r.2))
       (run (init MODE_SLIP) [65; SLIP_ESC; SLIP_END])
     = Some ([], 0, [Packet [65]]).
Proof. split; vm_compute; reflexivity. Qed.

(** ** Text between frames *)

Lemma run_passthrough (text : list Z) (st : state) :
  mode st = MODE_SLIP_AUTO \/ mode st = MODE_SLIP_HIDE ->
  flags st = 0 ->
  Forall (fun c => c <> SLIP_END) text ->
  run st text = Some (st, map Putc text).
Proof.
  intros Hm Hf. induction 1 as [|c text Hc _ IH]; [reflexivity|].
  rewrite run_cons.
  assert (Hs : step st c = Some (st, [Putc c])).
  { unfold step. destruct Hm as [-> | ->]; rewrite Hf;
      (destruct (Z.eqb_spec c SLIP_END); [contradiction | reflexivity]). }
  rewrite Hs. cbn -[run]. rewrite IH. reflexivity.
Qed.

(** C10. In the automatic and in the hiding mode, whether a byte other
    than the delimiter is printed as text depends on [flags] alone: with
    [flags] clear it is printed at once and the state is untouched, with
    [flags] set it goes to the decoder.  [flags] is clear at the start and
    again after every frame a delimiter closes, so after a frame, as before
    the first delimiter, the bytes up to the next delimiter are printed as
    text (in the hiding mode too), and that delimiter sets [flags]. *)
Theorem unframed_bytes_pass_through (st : state) :
  mode st = MODE_SLIP_AUTO \/ mode st = MODE_SLIP_HIDE ->
  (forall c, flags st = 0 -> c <> SLIP_END -> step st c = Some (st, [Putc c]))
  /\ (forall c, flags st <> 0 -> step st c = slip_byte st c)
  /\ (forall text,
        Forall (fun c => c <> SLIP_END) text ->
        run (init (mode st)) text = Some (init (mode st), map Putc text))
  /\ (0 < index st ->
      exists evs,
        step st SLIP_END = Some (closed st, evs)
        /\ flags (closed st) = 0
        /\ forall text,
            Forall (fun c => c <> SLIP_END) text ->
            run (closed st) text = Some (closed st, map Putc text))
  /\ (flags st = 0 -> index st <= 0 ->
      step st SLIP_END = Some (toggled st, [])
      /\ flags (toggled st) = 1
      /\ forall c, step (toggled st) c = slip_byte (toggled st) c).
Proof.
  intros Hm.
  assert (Hsm : slip_mode (mode st)) by (destruct Hm; [right; left | right; right]; assumption).
  split; [|split; [|split; [|split]]].
  - intros c Hf Hc. rewrite <- (run_single st c).
    apply (run_passthrough [c]); auto.
  - intros c Hf. apply step_slip_on. right. auto.
  - intros text Htext. apply run_passthrough; auto.
  - intros Hpos. rewrite (step_end _ Hsm), slip_byte_end_close by exact Hpos.
    eexists. split; [reflexivity|]. split; [reflexivity|].
    intros text Htext. apply run_passthrough; auto.
  - intros Hf Hzero. rewrite (step_end _ Hsm), slip_byte_end_empty by exact Hzero.
    split; [reflexivity|]. split; [simpl; by rewrite Hf|].
    intros c. apply step_slip_on. right. split; [exact Hm|].
    simpl. rewrite Hf. discriminate.
Qed.

Lemma unframed_bytes_pass_through_witness :
  (forall c, flags (init MODE_SLIP_HIDE) = 0 -> c <> SLIP_END ->
             step (init MODE_SLIP_HIDE) c = Some (init MODE_SLIP_HIDE, [Putc c]))
  /\ (forall c, flags (init MODE_SLIP_HIDE) <> 0 ->
                step (init MODE_SLIP_HIDE) c = slip_byte (init MODE_SLIP_HIDE) c)
  /\ (forall text,
        Forall (fun c => c <> SLIP_END) text ->
        run (init (mode (init MODE_SLIP_HIDE))) text
        = Some (init (mode (init MODE_SLIP_HIDE)), map Putc text))
  /\ (0 < index (init MODE_SLIP_HIDE) ->
      exists evs,
        step (init MODE_SLIP_HIDE) SLIP_END = Some (closed (init MODE_SLIP_HIDE), evs)
        /\ flags (closed (init MODE_SLIP_HIDE)) = 0
        /\ forall text,
            Forall (fun c => c <> SLIP_END) text ->
            run (closed (init MODE_SLIP_HIDE)) text
            = Some (closed (init MODE_SLIP_HIDE), map Putc text))
  /\ (flags (init MODE_SLIP_HIDE) = 0 -> index (init MODE_SLIP_HIDE) <= 0 ->
      step (init MODE_SLIP_HIDE) SLIP_END = Some (toggled (init MODE_SLIP_HIDE), [])
      /\ flags (toggled (init MODE_SLIP_HIDE)) = 1
      /\ forall c, step (toggled (init MODE_SLIP_HIDE)) c
                   = slip_byte (toggled (init MODE_SLIP_HIDE)) c).
Proof.
  apply (unframed_bytes_pass_through (init MODE_SLIP_HIDE)).
  right. reflexivity.
Defined.

(** C9. In every state the receive loop reaches, whatever the mode and
    the chunks read, the index is at least 0 and below the bound of the
    mode (2048 for the SLIP modes, 20 in hex mode), hence never above
    2048; the next byte is always processed without a store outside the
    array: when it is stored, it is stored at the index, which is below 2048
    (below 20 in hex mode), and the index goes back to 0 in that same step
    where one more would reach the bound. *)
Theorem index_stays_in_bounds (m : mode_t) (chunks : list (list Z)) :
  exists st evs,
    main_loop (init m) chunks = Some (st, evs)
    /\ 0 <= index st <= RXBUF_SIZE
    /\ index st < index_limit (mode st)
    /\ forall c, exists st' evs',
        step st c = Some (st', evs')
        /\ step_writes st st'
        /\ 0 <= index st' < index_limit (mode st').
Proof.
  destruct (main_loop_index chunks (init m) (index_ok_init m))
    as (st & evs & Hl & Hok).
  exists st, evs. split; [exact Hl|].
  pose proof (ok_index _ Hok) as Hi. pose proof (index_limit_le (mode st)).
  split; [lia|]. split; [lia|].
  intros c. destruct (step_index st c Hok) as (st' & evs' & Hs & Hok' & Hw).
  exists st', evs'. split; [exact Hs|]. split; [exact Hw | apply Hok'].
Qed.

(** ** The width of a hex line *)

Lemma string_length_app (a b : string) :
  String.length (a ++ b)%string = (String.length a + String.length b)%nat.
Proof. induction a as [|ch a IH]; simpl; [reflexivity | by rewrite IH]. Qed.

Lemma columns_app (a b : list Z) :
  columns (a ++ b) = (columns a + columns b)%nat.
Proof. induction a as [|i a IH]; simpl; [reflexivity | rewrite IH; lia]. Qed.

Lemma length_concat_cells (cell : Z -> string) (positions : list Z) :
  (forall i, String.length (cell i) = (String.length (group_gap i) + 2)%nat) ->
  String.length (String.concat EmptyString (map cell positions))
  = columns positions.
Proof.
  intros Hcell. induction positions as [|i rest IH]; [reflexivity|].
  destruct rest as [|j rest].
  - simpl. rewrite Hcell. lia.
  - change (String.concat EmptyString (map cell (i :: j :: rest)))
      with (cell i ++ EmptyString ++ String.concat EmptyString (map cell (j :: rest)))%string.
    rewrite !string_length_app, IH, Hcell. simpl. lia.
Qed.

Lemma hex_columns_length (prefix : string) (outbuf : list Z) (index : Z) :
  0 <= index <= HCOLS ->
  String.length (hex_columns prefix outbuf index)
  = (String.length prefix + 48)%nat.
Proof.
  intros Hi. unfold hex_columns, hex_pairs, hex_padding.
  rewrite !string_length_app.
  rewrite (length_concat_cells (fun i => (group_gap i ++ hex2 (peek outbuf i))%string))
    by (intros i; by rewrite string_length_app).
  rewrite (length_concat_cells (fun i => (group_gap i ++ "  ")%string))
    by (intros i; by rewrite string_length_app).
  assert (Hall : (columns (seqZ 0 index) + columns (seqZ index (HCOLS - index)))%nat
                 = 45%nat).
  { rewrite <- columns_app.
    replace (seqZ index (HCOLS - index)) with (seqZ (0 + index) (HCOLS - index))
      by (f_equal; lia).
    rewrite <- seqZ_app by lia.
    replace (index + (HCOLS - index)) with HCOLS by lia.
    vm_compute. reflexivity. }
  simpl. lia.
Qed.

(** C7, as the code has it.  In hex mode a read of the three bytes 41 42 43
    leaves the partial line: a carriage return, a blank and the hex pairs
    414243 (a blank goes before every group of four bytes, so the three
    bytes stay together), blanks up to the full width, and the characters
    ABC.  Whatever the prefix and the bytes, for 0 to 20 bytes held, what
    [print_hex_line] prints before the characters is 48 columns after the
    prefix. *)
Theorem hex_line_layout (prefix : string) (outbuf : list Z) (index : Z) :
  0 <= index <= HCOLS ->
  String.length (hex_columns prefix outbuf index) = (String.length prefix + 48)%nat
  /\ print_hex_line prefix outbuf index
     = (hex_columns prefix outbuf index ++ ascii_part outbuf index)%string
  /\ option_map snd (process_chunk (init MODE_HEX) [65; 66; 67])
     = Some [HexLine [65; 66; 67]]
  /\ stdout_of "" [HexLine [65; 66; 67]] = print_hex_line "" [65; 66; 67] 3
  /\ print_hex_line "" [65; 66; 67] 3
     = (carriage_return
        ++ " 414243                                        ABC")%string.
Proof.
  intros Hi. split; [by apply hex_columns_length|].
  split; [reflexivity|]. repeat split; vm_compute; reflexivity.
Qed.

Lemma hex_line_layout_witness :
  String.length (hex_columns "SLIP:" [192; 65] 2) = (String.length "SLIP:" + 48)%nat
  /\ print_hex_line "SLIP:" [192; 65] 2
     = (hex_columns "SLIP:" [192; 65] 2 ++ ascii_part [192; 65] 2)%string
  /\ option_map snd (process_chunk (init MODE_HEX) [65; 66; 67])
     = Some [HexLine [65; 66; 67]]
  /\ stdout_of "" [HexLine [65; 66; 67]] = print_hex_line "" [65; 66; 67] 3
  /\ print_hex_line "" [65; 66; 67] 3
     = (carriage_return
        ++ " 414243                                        ABC")%string.
Proof.
  apply (hex_line_layout "SLIP:" [192; 65] 2).
  unfold HCOLS. lia.
Defined.

(** C7 as stated fails on the hex pairs: the line printed for 41 42 43
    holds 414243 and nowhere the text 4142 43. *)
Lemma hex_line_layout_counterexample :
  String.index 0 "4142 43" (print_hex_line "" [65; 66; 67] 3) = None
  /\ String.index 0 "414243" (print_hex_line "" [65; 66; 67] 3) = Some 2%nat.
Proof. split; vm_compute; reflexivity. Qed.


(** ** Beyond the decoder: what each mode prints *)

(** A property of the state kept by every byte, with a property of the
    events printed, holds along every run. *)
Lemma run_invariant (P : state -> Prop) (Q : event -> Prop) :
  (forall st c, P st ->
     exists st' evs, step st c = Some (st', evs) /\ P st' /\ Forall Q evs) ->
  forall bytes st, P st ->
    exists st' evs, run st bytes = Some (st', evs) /\ P st' /\ Forall Q evs.
Proof.
  intros Hstep. induction bytes as [|c rest IH]; intros st HP.
  - exists st, []. repeat split; [exact HP | constructor].
  - destruct (Hstep st c HP) as (st1 & evs1 & Hs & HP1 & HQ1).
    destruct (IH st1 HP1) as (st2 & evs2 & Hr & HP2 & HQ2).
    exists st2, (evs1 ++ evs2). rewrite run_cons, Hs. cbn -[run]. rewrite Hr.
    split; [reflexivity|]. split; [exact HP2|]. by apply Forall_app.
Qed.

(** What one byte prints in a SLIP mode: nothing, the overflow report, the
    byte as text (automatic and hiding modes with [flags] clear), or the
    buffered bytes as a packet (on a delimiter, buffer non-empty, frame not
    overflowed, mode not hiding). *)
Lemma step_slip_shape (st : state) (c : Z) :
  wf st -> slip_mode (mode st) ->
  exists st' evs,
    step st c = Some (st', evs) /\ wf st' /\ mode st' = mode st
    /\ (evs = []
        \/ (evs = [SlipOverflow] /\ flags st' = 2 /\ index st' = 0)
        \/ (evs = [Putc c] /\ mode st <> MODE_SLIP /\ flags st = 0 /\ st' = st)
        \/ (evs = [Packet (frame_buffer st)] /\ c = SLIP_END /\ 0 < index st
            /\ mode st <> MODE_SLIP_HIDE /\ flags st <> 2)).
Proof.
  intros Hwf Hm.
  destruct (step_slip_cases st c Hm) as [-> | (-> & Hf & _ & Hne)].
  2:{ exists st, [Putc c]. split; [reflexivity|]. split; [exact Hwf|].
      split; [reflexivity|]. right. right. left. auto. }
  destruct (Z.eq_dec c SLIP_ESC) as [-> | Hesc].
  { eexists _, _. split; [reflexivity|]. split; [wf_from Hwf|].
    split; [reflexivity|]. by left. }
  destruct (Z.eq_dec c SLIP_END) as [-> | Hend].
  - destruct (Z.lt_ge_cases 0 (index st)) as [Hpos | Hzero].
    + rewrite slip_byte_end_close by exact Hpos.
      eexists _, _. split; [reflexivity|]. split; [wf_from Hwf|].
      split; [reflexivity|].
      destruct (Z.eqb_spec (flags st) 2) as [Hf | Hf]; [by left|].
      unfold packet_events.
      destruct (mode_eqb (mode st) MODE_SLIP_HIDE) eqn:Hh; [by left|].
      right. right. right. repeat split; auto.
      intros E. rewrite E in Hh. discriminate.
    + rewrite slip_byte_end_empty by exact Hzero.
      eexists _, _. split; [reflexivity|]. split; [wf_from Hwf|].
      split; [reflexivity|]. by left.
  - rewrite (slip_byte_data _ _ Hwf Hesc Hend). cbv zeta.
    pose proof (wf_index _ Hwf).
    destruct (Z.geb_spec (index st + 1) RXBUF_SIZE);
      eexists _, _; (split; [reflexivity|]); (split; [wf_from Hwf|]);
      (split; [reflexivity|]); [right; left; auto | by left].
Qed.

(** X1.  In the hiding mode no stream makes the program show a packet. *)
Theorem hiding_mode_shows_no_packet (st : state) (bytes : list Z) :
  wf st -> mode st = MODE_SLIP_HIDE ->
  exists st' evs,
    run st bytes = Some (st', evs)
    /\ mode st' = MODE_SLIP_HIDE
    /\ Forall (fun e => is_packet e = false) evs.
Proof.
  intros Hwf Hm.
  destruct (run_invariant (fun s => wf s /\ mode s = MODE_SLIP_HIDE)
              (fun e => is_packet e = false)) with (bytes := bytes) (st := st)
    as (st' & evs & Hr & [_ Hm'] & HQ); [| by split | by exists st', evs].
  intros s c [Hs Hms].
  destruct (step_slip_shape s c Hs) as (s' & evs & Hst & Hwf' & Hm' & Hshape);
    [rewrite Hms; right; by right|].
  exists s', evs. split; [exact Hst|]. split; [split; [exact Hwf' | congruence]|].
  destruct Hshape as [-> | [(-> & _) | [(-> & _) | (-> & _ & _ & Hne & _)]]];
    repeat constructor. contradiction.
Qed.

Lemma hiding_mode_shows_no_packet_witness :
  exists st' evs,
    run (init MODE_SLIP_HIDE) [192; 65; 66; 192; 67] = Some (st', evs)
    /\ mode st' = MODE_SLIP_HIDE
    /\ Forall (fun e => is_packet e = false) evs.
Proof.
  apply (hiding_mode_shows_no_packet (init MODE_SLIP_HIDE) [192; 65; 66; 192; 67]).
  - apply wf_init.
  - reflexivity.
Defined.

(** X2.  In the SLIP-only mode no byte is ever printed as text: whatever
    arrives is taken as frame content or as a marker. *)
Theorem slip_only_prints_no_text (st : state) (bytes : list Z) :
  wf st -> mode st = MODE_SLIP ->
  exists st' evs,
    run st bytes = Some (st', evs)
    /\ mode st' = MODE_SLIP
    /\ putc_bytes evs = []
    /\ Forall (fun e => is_putc e = false) evs.
Proof.
  intros Hwf Hm.
  destruct (run_invariant (fun s => wf s /\ mode s = MODE_SLIP)
              (fun e => is_putc e = false)) with (bytes := bytes) (st := st)
    as (st' & evs & Hr & [_ Hm'] & HQ); [| by split |].
  - intros s c [Hs Hms].
    destruct (step_slip_shape s c Hs) as (s' & evs & Hst & Hwf' & Hm' & Hshape);
      [rewrite Hms; by left|].
    exists s', evs. split; [exact Hst|]. split; [split; [exact Hwf' | congruence]|].
    destruct Hshape as [-> | [(-> & _) | [(-> & Hne & _) | (-> & _)]]];
      repeat constructor. contradiction.
  - exists st', evs. split; [exact Hr|]. split; [exact Hm'|]. split; [|exact HQ].
    clear Hr. induction HQ as [|e evs He _ IH]; [reflexivity|].
    destruct e; simpl in *; try discriminate; exact IH.
Qed.

Lemma slip_only_prints_no_text_witness :
  exists st' evs,
    run (init MODE_SLIP) [72; 105; 192; 65] = Some (st', evs)
    /\ mode st' = MODE_SLIP
    /\ putc_bytes evs = []
    /\ Forall (fun e => is_putc e = false) evs.
Proof.
  apply (slip_only_prints_no_text (init MODE_SLIP) [72; 105; 192; 65]).
  - apply wf_init.
  - reflexivity.
Defined.

(** X3.  Every packet the decoder shows holds at least 1 and at most 2047
    bytes: a frame that fills all 2048 cells of the buffer is given up. *)
Theorem packet_size_bounds (st : state) (bytes : list Z) :
  wf st -> slip_mode (mode st) ->
  exists st' evs,
    run st bytes = Some (st', evs)
    /\ Forall (fun e => forall content,
                 e = Packet content ->
                 1 <= Z.of_nat (length content) < RXBUF_SIZE) evs.
Proof.
  intros Hwf Hm.
  destruct (run_invariant (fun s => wf s /\ slip_mode (mode s))
              (fun e => forall content,
                 e = Packet content ->
                 1 <= Z.of_nat (length content) < RXBUF_SIZE))
    with (bytes := bytes) (st := st)
    as (st' & evs & Hr & _ & HQ); [| by split | by exists st', evs].
  intros s c [Hs Hms].
  destruct (step_slip_shape s c Hs Hms) as (s' & evs & Hst & Hwf' & Hm' & Hshape).
  exists s', evs. split; [exact Hst|].
  split; [split; [exact Hwf' | by rewrite Hm']|].
  destruct Hshape as [-> | [(-> & _) | [(-> & _) | (-> & _ & Hpos & _)]]];
    try apply Forall_nil_2;
    (apply Forall_cons_2; [|apply Forall_nil_2]);
    intros bs Heq; try discriminate.
  injection Heq as <-.
  rewrite (length_frame_buffer _ Hs). pose proof (wf_index _ Hs). lia.
Qed.

Lemma packet_size_bounds_witness :
  exists st' evs,
    run (init MODE_SLIP) [65; 192; 192; 66; 67; 192] = Some (st', evs)
    /\ Forall (fun e => forall content,
                 e = Packet content ->
                 1 <= Z.of_nat (length content) < RXBUF_SIZE) evs.
Proof.
  apply (packet_size_bounds (init MODE_SLIP) [65; 192; 192; 66; 67; 192]).
  - apply wf_init.
  - left. reflexivity.
Defined.

Lemma step_hidden (st : state) (c : Z) :
  mode st = MODE_SLIP_AUTO ->
  step (with_mode MODE_SLIP_HIDE st) c
  = option_map (fun r => (with_mode MODE_SLIP_HIDE r.1, without_packets r.2))
      (step st c).
Proof.
  intros Hm. destruct st as [m i f l rx]. simpl in Hm. subst m.
  unfold step, slip_byte, with_mode, rxbuf_store. simpl.
  rewrite ?andb_false_r, ?andb_true_r.
  repeat (match goal with
          | |- context [if ?b then _ else _] => destruct b eqn:?
          end; simpl; try reflexivity).
Qed.

(** X4.  The hiding mode is the automatic mode with the packets left out: on
    every stream both go through the same values of [index], [flags],
    [lastc] and [rxbuf], and print the same text and overflow reports. *)
Theorem hiding_is_automatic_without_packets (st : state) (bytes : list Z) :
  mode st = MODE_SLIP_AUTO ->
  run (with_mode MODE_SLIP_HIDE st) bytes
  = option_map (fun r => (with_mode MODE_SLIP_HIDE r.1, without_packets r.2))
      (run st bytes).
Proof.
  revert st. induction bytes as [|c rest IH]; intros st Hm; [reflexivity|].
  rewrite !run_cons, (step_hidden _ _ Hm).
  destruct (step st c) as [[st1 evs1]|] eqn:Hs; [|reflexivity].
  assert (Hm1 : mode st1 = MODE_SLIP_AUTO).
  { revert Hs. unfold step, slip_byte. rewrite Hm.
    repeat (match goal with
            | |- context [if ?b then _ else _] => destruct b
            | |- context [rxbuf_store ?a ?b ?c] => destruct (rxbuf_store a b c)
            end; simpl); intros Hs; try discriminate;
      injection Hs as <- _; reflexivity || exact Hm. }
  cbn -[run]. rewrite (IH st1 Hm1).
  destruct (run st1 rest) as [[st2 evs2]|]; [|reflexivity].
  cbn. unfold without_packets. by rewrite filter_app.
Qed.

Lemma hiding_is_automatic_without_packets_witness :
  run (with_mode MODE_SLIP_HIDE (init MODE_SLIP_AUTO)) [72; 192; 65; 192; 72]
  = option_map (fun r => (with_mode MODE_SLIP_HIDE r.1, without_packets r.2))
      (run (init MODE_SLIP_AUTO) [72; 192; 65; 192; 72]).
Proof.
  apply (hiding_is_automatic_without_packets (init MODE_SLIP_AUTO)
           [72; 192; 65; 192; 72]).
  reflexivity.
Defined.

(** X5.  In the automatic and hiding modes [flags] is 0, 1 or 2, the escape is
    either open or not, and the buffer holds bytes only while [flags] is
    set: text is passed through only with an empty buffer. *)
Theorem automatic_buffers_only_in_frame (st : state) (bytes : list Z) :
  wf st ->
  mode st = MODE_SLIP_AUTO \/ mode st = MODE_SLIP_HIDE ->
  flags st = 0 \/ flags st = 1 \/ flags st = 2 ->
  (flags st = 0 -> index st = 0) ->
  exists st' evs,
    run st bytes = Some (st', evs)
    /\ (flags st' = 0 \/ flags st' = 1 \/ flags st' = 2)
    /\ (flags st' = 0 -> index st' = 0)
    /\ (lastc st' = 0 \/ lastc st' = SLIP_ESC).
Proof.
  intros Hwf Hm Hf Hz.
  destruct (run_invariant
              (fun s => wf s
                        /\ (mode s = MODE_SLIP_AUTO \/ mode s = MODE_SLIP_HIDE)
                        /\ (flags s = 0 \/ flags s = 1 \/ flags s = 2)
                        /\ (flags s = 0 -> index s = 0))
              (fun _ => True)) with (bytes := bytes) (st := st)
    as (st' & evs & Hr & (Hwf' & _ & Hf' & Hz') & _); [| by auto |].
  2:{ exists st', evs. repeat split; auto. apply Hwf'. }
  clear. intros s c (Hwf & Hm & Hf & Hz).
  assert (Hsm : slip_mode (mode s)) by (destruct Hm; [right; left | right; right]; assumption).
  assert (Htrue : forall evs : list event, Forall (fun _ => True) evs)
    by (intros evs; by apply Forall_forall).
  pose proof (wf_index _ Hwf) as Hi.
  destruct (Z.eq_dec c SLIP_END) as [-> | Hend].
  - rewrite (step_end _ Hsm).
    destruct (Z.lt_ge_cases 0 (index s)) as [Hpos | Hzero].
    + rewrite slip_byte_end_close by exact Hpos.
      eexists _, _. split; [reflexivity|]. split; [|apply Htrue].
      split; [wf_from Hwf|]. simpl. auto.
    + rewrite slip_byte_end_empty by exact Hzero.
      eexists _, _. split; [reflexivity|]. split; [|apply Htrue].
      split; [wf_from Hwf|]. simpl. split; [exact Hm|].
      unfold lnot. destruct (flags s =? 0); split; auto; lia.
  - destruct (Z.eq_dec (flags s) 0) as [Hf0 | Hf0].
    + exists s, [Putc c]. rewrite <- run_single.
      rewrite (run_passthrough [c] s Hm Hf0) by (by constructor).
      split; [reflexivity|]. split; [|apply Htrue]. auto.
    + assert (Hon : slip_on s) by (right; auto).
      rewrite (step_slip_on _ _ Hon).
      destruct (Z.eq_dec c SLIP_ESC) as [-> | Hesc].
      * eexists _, _. split; [reflexivity|]. split; [|apply Htrue].
        split; [wf_from Hwf|]. simpl. auto.
      * rewrite (slip_byte_data _ _ Hwf Hesc Hend). cbv zeta.
        destruct (Z.geb_spec (index s + 1) RXBUF_SIZE);
          eexists _, _; (split; [reflexivity|]); (split; [|apply Htrue]);
          (split; [wf_from Hwf|]); simpl; (split; [exact Hm|]);
          split; auto; lia.
Qed.

Lemma automatic_buffers_only_in_frame_witness :
  exists st' evs,
    run (init MODE_SLIP_AUTO) [72; 192; 65; 219; 192; 192] = Some (st', evs)
    /\ (flags st' = 0 \/ flags st' = 1 \/ flags st' = 2)
    /\ (flags st' = 0 -> index st' = 0)
    /\ (lastc st' = 0 \/ lastc st' = SLIP_ESC).
Proof.
  apply (automatic_buffers_only_in_frame (init MODE_SLIP_AUTO)
           [72; 192; 65; 219; 192; 192]).
  - apply wf_init.
  - left. reflexivity.
  - left. reflexivity.
  - reflexivity.
Defined.

(** One byte leaves the mode as it is, or moves between the two date
    modes. *)
Lemma step_mode (st st' : state) (c : Z) (evs : list event) :
  step st c = Some (st', evs) ->
  mode st' = mode st
  \/ (is_date (mode st) = true /\ is_date (mode st') = true).
Proof.
  unfold step, slip_byte, date_byte.
  destruct (mode st) eqn:Hm;
    repeat (match goal with
            | |- context [if ?b then _ else _] => destruct b
            | |- context [rxbuf_store ?a ?b ?c] => destruct (rxbuf_store a b c)
            end; simpl);
    intros Hs; try discriminate; injection Hs as <- _; simpl; auto.
Qed.

Lemma run_mode (bytes : list Z) (st st' : state) (evs : list event) :
  run st bytes = Some (st', evs) ->
  mode st' = mode st
  \/ (is_date (mode st) = true /\ is_date (mode st') = true).
Proof.
  revert st evs. induction bytes as [|c rest IH]; intros st evs Hr.
  - injection Hr as <- _. by left.
  - rewrite run_cons in Hr.
    destruct (step st c) as [[st1 evs1]|] eqn:Hs; [|discriminate].
    cbn -[run] in Hr.
    destruct (run st1 rest) as [[st2 evs2]|] eqn:Hr2; [|discriminate].
    injection Hr as <- _.
    destruct (step_mode _ _ _ _ Hs) as [E1 | [D1 D1']];
      destruct (IH _ _ Hr2) as [E2 | [D2 D2']].
    + left. congruence.
    + right. rewrite <- E1. auto.
    + right. rewrite E2. auto.
    + right. auto.
Qed.

(** X6.  How the reads of the channel are cut into chunks does not matter to
    the state the loop reaches, and outside hex mode it does not matter to
    what is printed either: a frame or a line split over several reads is
    handled as if it had come in one. *)
Theorem chunking_is_invisible (chunks : list (list Z)) (st : state) :
  option_map fst (main_loop st chunks) = option_map fst (run st (concat chunks))
  /\ (mode st <> MODE_HEX -> main_loop st chunks = run st (concat chunks)).
Proof.
  revert st. induction chunks as [|bytes rest IH]; intros st; [by split|].
  cbn [main_loop concat]. rewrite run_app. unfold process_chunk.
  destruct (run st bytes) as [[st1 evs1]|] eqn:Hr; [|by split].
  cbn -[main_loop run]. destruct (IH st1) as [IHst IHev]. split.
  - destruct (main_loop st1 rest) as [[st2 evs2]|],
             (run st1 (concat rest)) as [[st2' evs2']|]; simpl in *; congruence.
  - intros Hne.
    assert (Hne1 : mode st1 <> MODE_HEX).
    { destruct (run_mode _ _ _ _ Hr) as [E | [D D']]; [congruence|].
      intros E. rewrite E in D'. discriminate. }
    rewrite (IHev Hne1).
    assert (Hoff : mode_eqb (mode st1) MODE_HEX = false)
      by (destruct (mode st1); try reflexivity; contradiction).
    rewrite Hoff, andb_false_r, app_nil_r. reflexivity.
Qed.

Lemma chunking_is_invisible_witness :
  option_map fst (main_loop (init MODE_SLIP) [[192; 65]; [66; 192]])
  = option_map fst (run (init MODE_SLIP) (concat [[192; 65]; [66; 192]]))
  /\ (mode (init MODE_SLIP) <> MODE_HEX ->
      main_loop (init MODE_SLIP) [[192; 65]; [66; 192]]
      = run (init MODE_SLIP) (concat [[192; 65]; [66; 192]])).
Proof.
  apply (chunking_is_invisible [[192; 65]; [66; 192]] (init MODE_SLIP)).
Defined.

Lemma wrap_div (k t : Z) :
  0 < k -> 0 <= t -> Z.to_nat ((t + k) / k) = S (Z.to_nat (t / k)).
Proof.
  intros Hk Ht. replace (t + k) with (t + 1 * k) by lia.
  rewrite Z.div_add by lia.
  assert (0 <= t / k) by (apply Z.div_pos; lia). lia.
Qed.

Lemma wrap_mod (k t : Z) : 0 < k -> (t + k) mod k = t mod k.
Proof.
  intros Hk. replace (t + k) with (t + 1 * k) by lia. apply Z.mod_add. lia.
Qed.

(** X7.  The two text modes print every byte as it is and keep no state. *)
Theorem text_mode_echoes (st : state) (bytes : list Z) :
  mode st = MODE_START_TEXT \/ mode st = MODE_TEXT ->
  run st bytes = Some (st, map Putc bytes)
  /\ putc_bytes (map Putc bytes) = bytes.
Proof.
  intros Hm. split.
  - induction bytes as [|c rest IH]; [reflexivity|].
    rewrite run_cons.
    assert (Hs : step st c = Some (st, [Putc c]))
      by (unfold step; destruct Hm as [-> | ->]; reflexivity).
    rewrite Hs. cbn -[run]. by rewrite IH.
  - induction bytes as [|c rest IH]; [reflexivity|]. simpl. by rewrite IH.
Qed.

Lemma text_mode_echoes_witness :
  run (init MODE_START_TEXT) [72; 105; 10] = Some (init MODE_START_TEXT, map Putc [72; 105; 10])
  /\ putc_bytes (map Putc [72; 105; 10]) = [72; 105; 10].
Proof.
  apply (text_mode_echoes (init MODE_START_TEXT) [72; 105; 10]).
  left. reflexivity.
Defined.

(** X8.  Decimal mode prints every byte once, in order, and a line break after
    every 18th column: [index] counts the columns of the current line. *)
Theorem decimal_mode_columns (bytes : list Z) (st : state) :
  mode st = MODE_INT -> 0 <= index st < ICOLS ->
  exists st' evs,
    run st bytes = Some (st', evs)
    /\ decimals evs = bytes
    /\ putc_bytes evs = []
    /\ index st' = (index st + Z.of_nat (length bytes)) mod ICOLS
    /\ count_events is_newline evs
       = Z.to_nat ((index st + Z.of_nat (length bytes)) / ICOLS)
    /\ rxbuf st' = rxbuf st.
Proof.
  revert st. induction bytes as [|c rest IH]; intros st Hm Hi.
  - exists st, []. simpl. rewrite Z.add_0_r, Z.mod_small, Z.div_small by lia.
    repeat split; reflexivity.
  - rewrite run_cons. unfold step at 1. rewrite Hm.
    assert (Hlen : index st + Z.of_nat (length (c :: rest))
                   = index st + 1 + Z.of_nat (length rest))
      by (simpl length; lia).
    rewrite Hlen.
    destruct (Z.geb_spec (index st + 1) ICOLS) as [Hwrap | Hin].
    + match goal with |- context [Some (?s, [Decimal c; Newline])] => set (st1 := s) end.
      destruct (IH st1) as (st' & evs & Hr & Hd & Hp & Hidx & Hnl & Hrx);
        [reflexivity | simpl; unfold ICOLS; lia |].
      exists st', ([Decimal c; Newline] ++ evs). cbn -[run]. rewrite Hr.
      split; [reflexivity|]. simpl decimals. simpl putc_bytes.
      rewrite Hd, Hp, Hidx, Hrx.
      replace (index st + 1 + Z.of_nat (length rest))
        with (index st1 + Z.of_nat (length rest) + ICOLS) by (simpl; lia).
      rewrite wrap_mod, wrap_div by (simpl; unfold ICOLS; lia).
      repeat split; try reflexivity.
      simpl. rewrite Hnl. reflexivity.
    + match goal with |- context [Some (?s, [Decimal c])] => set (st1 := s) end.
      destruct (IH st1) as (st' & evs & Hr & Hd & Hp & Hidx & Hnl & Hrx);
        [reflexivity | simpl; lia |].
      exists st', ([Decimal c] ++ evs). cbn -[run]. rewrite Hr.
      split; [reflexivity|]. simpl decimals. simpl putc_bytes.
      rewrite Hd, Hp, Hidx, Hrx.
      repeat split; try reflexivity.
      simpl. rewrite Hnl. reflexivity.
Qed.

Lemma decimal_mode_columns_witness :
  exists st' evs,
    run (init MODE_INT) [1; 2; 3] = Some (st', evs)
    /\ decimals evs = [1; 2; 3]
    /\ putc_bytes evs = []
    /\ index st' = (index (init MODE_INT) + Z.of_nat (length [1; 2; 3])) mod ICOLS
    /\ count_events is_newline evs
       = Z.to_nat ((index (init MODE_INT) + Z.of_nat (length [1; 2; 3])) / ICOLS)
    /\ rxbuf st' = rxbuf (init MODE_INT).
Proof.
  apply (decimal_mode_columns [1; 2; 3] (init MODE_INT)).
  - reflexivity.
  - simpl. unfold ICOLS. lia.
Defined.

(** X9.  Hex mode shows every byte once and in order: the bytes of the full
    lines printed, followed by the bytes still held for the current line,
    are the bytes held before followed by the input; every full line has
    exactly 20 bytes; and a read ends with the partial line, if any. *)
Theorem hex_mode_lines (bytes : list Z) (st : state) :
  mode st = MODE_HEX ->
  length (rxbuf st) = Z.to_nat RXBUF_SIZE ->
  0 <= index st < HCOLS ->
  exists st' evs,
    run st bytes = Some (st', evs)
    /\ mode st' = MODE_HEX
    /\ hex_shown evs ++ frame_buffer st' = frame_buffer st ++ bytes
    /\ index st' = (index st + Z.of_nat (length bytes)) mod HCOLS
    /\ count_events is_hex_line evs
       = Z.to_nat ((index st + Z.of_nat (length bytes)) / HCOLS)
    /\ Forall (fun e => forall line,
                 e = HexLine line -> length line = Z.to_nat HCOLS) evs
    /\ process_chunk st bytes
       = Some (st', evs ++ (if index st' >? 0
                            then [HexLine (frame_buffer st')] else [])).
Proof.
  revert st. induction bytes as [|c rest IH]; intros st Hm Hlen Hi.
  - exists st, []. unfold process_chunk. cbn [run mbind option_bind].
    simpl. rewrite Hm. simpl.
    rewrite Z.add_0_r, Z.mod_small, Z.div_small, app_nil_r, andb_true_r by lia.
    repeat split; try reflexivity. constructor.
  - destruct st as [m i f l rx]. simpl in Hm, Hlen, Hi. subst m.
    assert (Hrx : (Z.to_nat i < length rx)%nat)
      by (rewrite Hlen; unfold HCOLS, RXBUF_SIZE in *; lia).
    assert (Hstore : rxbuf_store rx i c = Some (<[Z.to_nat i := c]> rx))
      by (apply rxbuf_store_in; unfold HCOLS, RXBUF_SIZE in *; lia).
    assert (Hn : i + Z.of_nat (length (c :: rest)) = i + 1 + Z.of_nat (length rest))
      by (simpl length; lia).
    cbn [index]. rewrite Hn.
    unfold process_chunk. rewrite run_cons. unfold step at 1 2.
    cbn [mode index flags lastc rxbuf]. rewrite Hstore. cbn -[run Z.geb].
    destruct (Z.geb_spec (i + 1) HCOLS) as [Hwrap | Hin].
    + set (st1 := mkState MODE_HEX 0 f l (<[Z.to_nat i := c]> rx)).
      destruct (IH st1) as (st' & evs & Hr & Hm' & Hsh & Hidx & Hcnt & Hall & Hpc);
        [reflexivity | simpl; by rewrite length_insert | simpl; unfold HCOLS; lia |].
      exists st', ([HexLine (take (Z.to_nat (i + 1)) (<[Z.to_nat i := c]> rx)); Newline]
                   ++ evs).
      cbn -[run Z.geb]. rewrite Hr. cbn -[Z.gtb].
      rewrite Hm'. cbn -[Z.gtb]. rewrite andb_true_r.
      split; [reflexivity|]. split; [reflexivity|].
      assert (Hwrapped : i + 1 + Z.of_nat (length rest)
                         = index st1 + Z.of_nat (length rest) + HCOLS)
        by (simpl; lia).
      split; [|split; [|split; [|split; [|reflexivity]]]].
      * rewrite <- app_assoc, Hsh, frame_buffer_store by lia.
        unfold frame_buffer. simpl. by rewrite <- app_assoc.
      * rewrite Hidx, Hwrapped, wrap_mod by (unfold HCOLS; lia). reflexivity.
      * rewrite Hcnt, Hwrapped, wrap_div by (simpl; unfold HCOLS; lia). reflexivity.
      * apply Forall_cons_2; [|apply Forall_cons_2; [discriminate | exact Hall]].
        intros line Heq. injection Heq as <-.
        rewrite length_take_le by (rewrite length_insert; lia).
        unfold HCOLS in *. lia.
    + set (st1 := mkState MODE_HEX (i + 1) f l (<[Z.to_nat i := c]> rx)).
      destruct (IH st1) as (st' & evs & Hr & Hm' & Hsh & Hidx & Hcnt & Hall & Hpc);
        [reflexivity | simpl; by rewrite length_insert | simpl; lia |].
      exists st', evs.
      cbn -[run Z.geb]. rewrite Hr. cbn -[Z.gtb].
      rewrite Hm'. cbn -[Z.gtb]. rewrite andb_true_r.
      split; [reflexivity|]. split; [reflexivity|].
      split; [|split; [|split; [|split; [exact Hall | reflexivity]]]].
      * rewrite Hsh. unfold frame_buffer. simpl.
        rewrite frame_buffer_store by lia. by rewrite <- app_assoc.
      * rewrite Hidx. reflexivity.
      * rewrite Hcnt. reflexivity.
Qed.

Lemma hex_mode_lines_witness :
  exists st' evs,
    run (init MODE_HEX) [65; 66; 67] = Some (st', evs)
    /\ mode st' = MODE_HEX
    /\ hex_shown evs ++ frame_buffer st' = frame_buffer (init MODE_HEX) ++ [65; 66; 67]
    /\ index st' = (index (init MODE_HEX) + Z.of_nat (length [65; 66; 67])) mod HCOLS
    /\ count_events is_hex_line evs
       = Z.to_nat ((index (init MODE_HEX) + Z.of_nat (length [65; 66; 67])) / HCOLS)
    /\ Forall (fun e => forall line,
                 e = HexLine line -> length line = Z.to_nat HCOLS) evs
    /\ process_chunk (init MODE_HEX) [65; 66; 67]
       = Some (st', evs ++ (if index st' >? 0
                            then [HexLine (frame_buffer st')] else [])).
Proof.
  apply (hex_mode_lines [65; 66; 67] (init MODE_HEX)).
  - reflexivity.
  - apply length_replicate.
  - simpl. unfold HCOLS. lia.
Defined.

(** X10.  The date modes print every byte as it is and put a time stamp before
    the first byte of every line: one at the start when a line is due, and
    one for every line feed that is followed by another byte.  After a line
    feed a new line is due. *)
Theorem date_mode_stamps_lines (bytes : list Z) (st : state) :
  is_date (mode st) = true ->
  exists st' evs,
    run st bytes = Some (st', evs)
    /\ putc_bytes evs = bytes
    /\ count_events is_timestamp evs
       = ((if mode_eqb (mode st) MODE_START_DATE
           then (if bytes is [] then 0 else 1) else 0)
          + count_byte 10 (removelast bytes))%nat
    /\ mode st' = match last bytes with
                  | None => mode st
                  | Some c => if c =? 10 then MODE_START_DATE else MODE_DATE
                  end
    /\ index st' = index st /\ flags st' = flags st
    /\ lastc st' = lastc st /\ rxbuf st' = rxbuf st.
Proof.
  revert st. induction bytes as [|c rest IH]; intros st Hd.
  - exists st, []. simpl. destruct (mode_eqb (mode st) MODE_START_DATE); auto 10.
  - set (st1 := mkState (if c =? 10 then MODE_START_DATE else MODE_DATE)
                  (index st) (flags st) (lastc st) (rxbuf st)).
    assert (Hs : step st c
                 = Some (st1, if mode_eqb (mode st) MODE_START_DATE
                              then [Timestamp; Putc c] else [Putc c])).
    { unfold step, date_byte. destruct (mode st); try discriminate; reflexivity. }
    assert (Hd1 : is_date (mode st1) = true) by (simpl; by destruct (c =? 10)).
    destruct (IH st1 Hd1) as (st' & evs & Hr & Hp & Hts & Hm & Hi & Hf & Hl & Hrx).
    eexists st', _. rewrite run_cons, Hs. cbn -[run]. rewrite Hr.
    split; [reflexivity|].
    assert (Hstart : mode_eqb (mode st1) MODE_START_DATE = (c =? 10))
      by (simpl; by destruct (c =? 10)).
    rewrite Hstart in Hts.
    split; [|split; [|split; [|auto]]].
    + destruct (mode_eqb (mode st) MODE_START_DATE); simpl; by rewrite Hp.
    + destruct rest as [|c2 rest].
      * simpl in Hts. destruct (mode_eqb (mode st) MODE_START_DATE); simpl;
          rewrite Hts; destruct (c =? 10); reflexivity.
      * change (removelast (c :: c2 :: rest)) with (c :: removelast (c2 :: rest)).
        destruct (mode_eqb (mode st) MODE_START_DATE); simpl count_events;
          rewrite Hts; simpl count_byte; destruct (c =? 10); simpl; lia.
    + rewrite Hm. destruct rest as [|c2 rest]; [reflexivity|].
      change (last (c :: c2 :: rest)) with (last (c2 :: rest)).
      destruct (last (c2 :: rest)) eqn:Hlast; [reflexivity|].
      apply last_None in Hlast. discriminate.
Qed.

Lemma date_mode_stamps_lines_witness :
  exists st' evs,
    run (init MODE_START_DATE) [72; 10; 105; 10] = Some (st', evs)
    /\ putc_bytes evs = [72; 10; 105; 10]
    /\ count_events is_timestamp evs
       = ((if mode_eqb (mode (init MODE_START_DATE)) MODE_START_DATE
           then (if [72; 10; 105; 10]%Z is [] then 0 else 1) else 0)
          + count_byte 10 (removelast [72; 10; 105; 10]%Z))%nat
    /\ mode st' = match last [72; 10; 105; 10] with
                  | None => mode (init MODE_START_DATE)
                  | Some c => if c =? 10 then MODE_START_DATE else MODE_DATE
                  end
    /\ index st' = index (init MODE_START_DATE)
    /\ flags st' = flags (init MODE_START_DATE)
    /\ lastc st' = lastc (init MODE_START_DATE)
    /\ rxbuf st' = rxbuf (init MODE_START_DATE).
Proof.
  apply (date_mode_stamps_lines [72; 10; 105; 10] (init MODE_START_DATE)).
  reflexivity.
Defined.

(** ** More on the hex line printer *)

Lemma length_concat_chars (cell : Z -> string) (positions : list Z) :
  (forall i, String.length (cell i) = 1%nat) ->
  String.length (String.concat EmptyString (map cell positions))
  = length positions.
Proof.
  intros Hcell. induction positions as [|i rest IH]; [reflexivity|].
  destruct rest as [|j rest].
  - simpl. by rewrite Hcell.
  - change (String.concat EmptyString (map cell (i :: j :: rest)))
      with (cell i ++ EmptyString ++ String.concat EmptyString (map cell (j :: rest)))%string.
    rewrite !string_length_app, IH, Hcell. reflexivity.
Qed.

Lemma ascii_part_length (outbuf : list Z) (index : Z) :
  String.length (ascii_part outbuf index) = Z.to_nat index.
Proof.
  unfold ascii_part. rewrite length_concat_chars; [apply length_seqZ|].
  intros i. simpl. by destruct ((peek outbuf i <? 30) || (peek outbuf i >? 126)).
Qed.

Lemma print_hex_line_length (prefix : string) (outbuf : list Z) (index : Z) :
  0 <= index <= HCOLS ->
  String.length (print_hex_line prefix outbuf index)
  = (String.length prefix + 48 + Z.to_nat index)%nat.
Proof.
  intros Hi. unfold print_hex_line.
  by rewrite string_length_app, hex_columns_length, ascii_part_length.
Qed.

(** X11.  A hex line for [index] bytes, 0 to 20 of them, is as wide as the
    prefix, the 48 hex columns and one character for every byte. *)
Theorem print_hex_line_width (prefix : string) (outbuf : list Z) (index : Z) :
  0 <= index <= HCOLS ->
  String.length (print_hex_line prefix outbuf index)
  = (String.length prefix + 48 + Z.to_nat index)%nat.
Proof.
  intros Hi. unfold print_hex_line.
  rewrite string_length_app, ascii_part_length.
  by rewrite (hex_columns_length prefix outbuf index Hi).
Qed.

Lemma print_hex_line_width_witness :
  String.length (print_hex_line "SLIP:" [65; 66; 67] 3)
  = (String.length "SLIP:" + 48 + Z.to_nat 3)%nat.
Proof.
  apply (print_hex_line_width "SLIP:" [65; 66; 67] 3).
  unfold HCOLS. lia.
Defined.

Lemma peek_take (outbuf : list Z) (index i : Z) :
  0 <= i < index -> peek (take (Z.to_nat index) outbuf) i = peek outbuf i.
Proof.
  intros Hi. unfold peek. rewrite lookup_take_lt by lia. reflexivity.
Qed.

Lemma map_seqZ_ext {A : Type} (f g : Z -> A) (index : Z) :
  (forall i, 0 <= i < index -> f i = g i) ->
  map f (seqZ 0 index) = map g (seqZ 0 index).
Proof.
  intros Hext. apply map_ext_in. intros i Hin.
  apply list_elem_of_In, elem_of_seqZ in Hin. apply Hext. lia.
Qed.

(** X12.  The printer reads nothing beyond the first [index] bytes it is given:
    what lies behind them in the buffer never shows. *)
Theorem print_hex_line_reads_prefix (prefix : string) (outbuf : list Z) (index : Z) :
  print_hex_line prefix outbuf index
  = print_hex_line prefix (take (Z.to_nat index) outbuf) index.
Proof.
  unfold print_hex_line, hex_columns, hex_pairs, ascii_part.
  rewrite (map_seqZ_ext
             (fun i => (group_gap i ++ hex2 (peek outbuf i))%string)
             (fun i => (group_gap i ++ hex2 (peek (take (Z.to_nat index) outbuf) i))%string))
    by (intros i Hi; by rewrite peek_take).
  rewrite (map_seqZ_ext
             (fun i => let c := peek outbuf i in
                       if (c <? 30) || (c >? 126) then "."%string else putc c)
             (fun i => let c := peek (take (Z.to_nat index) outbuf) i in
                       if (c <? 30) || (c >? 126) then "."%string else putc c))
    by (intros i Hi; cbv zeta; by rewrite peek_take).
  reflexivity.
Qed.

(** The lines of a packet: with a five-character prefix, a start [n] below
    [index] and enough fuel, each line takes 54 columns besides one
    character per byte. *)
Lemma show_packet_from_length (rx : list Z) (index : Z) (fuel : nat) :
  forall (prefix : string) (n : Z),
    String.length prefix = 5%nat ->
    0 <= n < index ->
    (index - n - 1) / HCOLS < Z.of_nat fuel ->
    Z.of_nat (String.length (show_packet_from fuel prefix rx n index))
    = 54 * ((index - n + 19) / HCOLS) + (index - n).
Proof.
  unfold HCOLS. induction fuel as [|fuel IH]; intros prefix n Hp Hn Hfuel.
  - assert (0 <= (index - n - 1) / 20) by (apply Z.div_pos; lia). lia.
  - cbn [show_packet_from]. cbv zeta.
    rewrite !string_length_app.
    assert (Hcount : 0 <= (if index - n >? HCOLS then HCOLS else index - n) <= HCOLS)
      by (unfold HCOLS; destruct (Z.gtb_spec (index - n) 20); lia).
    rewrite (print_hex_line_length _ _ _ Hcount), Hp.
    change (String.length line_feed) with 1%nat. unfold HCOLS.
    destruct (Z.ltb_spec (n + 20) index) as [Hmore | Hlast].
    + destruct (Z.gtb_spec (index - n) 20); [|lia].
      assert (Hfuel' : (index - (n + 20) - 1) / 20 < Z.of_nat fuel).
      { replace (index - n - 1) with (index - (n + 20) - 1 + 1 * 20) in Hfuel by lia.
        rewrite Z.div_add in Hfuel by lia.
        clear - Hfuel. lia. }
      assert (Hn' : 0 <= n + 20 < index) by lia.
      specialize (IH "     "%string (n + 20) eq_refl Hn' Hfuel').
      replace (index - n + 19) with (index - (n + 20) + 19 + 1 * 20) by lia.
      rewrite Z.div_add by lia.
      lia.
    + assert (Hone : (index - n + 19) / 20 = 1).
      { symmetry. apply (Z.div_unique _ _ 1 (index - n - 1)); lia. }
      rewrite Hone. simpl String.length.
      destruct (Z.gtb_spec (index - n) 20); lia.
Qed.

(** X13.  A packet of [index] bytes is shown in ceil(index / 20) lines that all
    have the same layout: the continuation prefix is as wide as "SLIP:",
    so the output has 54 characters for every line and one more for every
    byte. *)
Theorem show_packet_length (rx : list Z) (index : Z) :
  1 <= index ->
  Z.of_nat (String.length (show_packet rx index))
  = 54 * ((index + 19) / HCOLS) + index.
Proof.
  intros Hi. unfold show_packet.
  rewrite show_packet_from_length;
    [by replace (index - 0) with index by lia | reflexivity | lia |].
  assert (0 <= index / HCOLS) by (apply Z.div_pos; unfold HCOLS; lia).
  assert ((index - 0 - 1) / HCOLS <= index / HCOLS)
    by (apply Z.div_le_mono; unfold HCOLS; lia).
  lia.
Qed.

Lemma show_packet_length_witness :
  Z.of_nat (String.length (show_packet [65; 66; 192; 67] 4))
  = 54 * ((4 + 19) / HCOLS) + 4.
Proof.
  apply (show_packet_length [65; 66; 192; 67] 4). lia.
Defined.

(** ** Frames one after another *)

(** Delimited frames one after another, each leaving between 1 and 2047
    bytes in the buffer, come out as their packets, in order, and leave
    the decoder as it started. *)
Lemma run_frames (frames : list (list Z)) :
  forall st : state,
    wf st -> slip_mode (mode st) ->
    index st = 0 -> flags st = 0 -> lastc st = 0 ->
    Forall (fun p => Forall (fun c => c <> SLIP_END) p
                     /\ (0 < length (unstuff false p))%nat
                     /\ Z.of_nat (length (unstuff false p)) < RXBUF_SIZE) frames ->
    exists st',
      run st (concat (map (fun p => SLIP_END :: p ++ [SLIP_END]) frames))
      = Some (st', concat (map (fun p => packet_events (mode st) (unstuff false p))
                             frames))
      /\ mode st' = mode st /\ index st' = 0 /\ flags st' = 0 /\ lastc st' = 0
      /\ wf st'.
Proof.
  induction frames as [|p frames IH]; intros st Hwf Hm Hi Hf Hl Hall.
  - exists st. split; [reflexivity|]. split; [reflexivity|].
    split; [exact Hi|]. split; [exact Hf|]. split; [exact Hl | exact Hwf].
  - apply Forall_cons in Hall as [(Hp & Hpos & Hlt) Hall].
    destruct (run_frame st p Hwf Hm Hi Hf Hl Hp Hpos Hlt)
      as (st1 & Hr1 & Hm1 & Hi1 & Hf1 & Hl1 & Hwf1).
    assert (Hm1' : slip_mode (mode st1)) by (by rewrite Hm1).
    destruct (IH st1 Hwf1 Hm1' Hi1 Hf1 Hl1 Hall)
      as (st2 & Hr2 & Hm2 & Hi2 & Hf2 & Hl2 & Hwf2).
    exists st2. cbn [map concat]. rewrite run_app, Hr1. cbn -[run].
    rewrite Hr2, Hm1. cbn.
    split; [reflexivity|]. split; [congruence|].
    split; [exact Hi2|]. split; [exact Hf2|]. split; [exact Hl2 | exact Hwf2].
Qed.

(** X14.  Several reads of standard input, each non-empty, free of delimiter
    and escape bytes and at most [BUFSIZE] long, sent in MODE_SLIP and fed
    to the decoder one after the other, are shown as one packet per read,
    in order; in the hiding mode nothing is shown. *)
Theorem reads_arrive_as_packets (reads : list (list Z)) (m : mode_t) :
  slip_mode m ->
  Forall (fun B => B <> []
                   /\ Forall (fun c => c <> SLIP_END /\ c <> SLIP_ESC) B
                   /\ Z.of_nat (length B) <= BUFSIZE) reads ->
  exists st',
    run (init m) (concat (map (send_chunk MODE_SLIP) reads))
    = Some (st', concat (map (packet_events m) reads))
    /\ index st' = 0 /\ flags st' = 0 /\ lastc st' = 0.
Proof.
  intros Hm Hreads.
  destruct (run_frames reads (init m) (wf_init m) Hm eq_refl eq_refl eq_refl)
    as (st' & Hr & _ & Hi & Hf & Hl & _).
  - apply (Forall_impl _ _ _ Hreads). intros B (Hne & Hplain & Hlen).
    rewrite (unstuff_plain B Hplain). split; [|split].
    + apply (Forall_impl _ _ _ Hplain). by intros c [? _].
    + destruct B; [contradiction | simpl; lia].
    + unfold BUFSIZE, RXBUF_SIZE in *. lia.
  - assert (E1 : map (send_chunk MODE_SLIP) reads
                 = map (fun p => SLIP_END :: p ++ [SLIP_END]) reads).
    { apply map_ext_in. intros B HB. apply list_elem_of_In in HB.
      rewrite Forall_forall in Hreads. destruct (Hreads B HB) as (Hne & _).
      by apply send_chunk_slip. }
    assert (E2 : map (packet_events m) reads
                 = map (fun p => packet_events (mode (init m)) (unstuff false p)) reads).
    { apply map_ext_in. intros B HB. apply list_elem_of_In in HB.
      rewrite Forall_forall in Hreads. destruct (Hreads B HB) as (_ & Hplain & _).
      by rewrite (unstuff_plain B Hplain). }
    exists st'. rewrite E1, E2. auto.
Qed.

Lemma reads_arrive_as_packets_witness :
  exists st',
    run (init MODE_SLIP_AUTO) (concat (map (send_chunk MODE_SLIP) [[65; 66]; [67]]))
    = Some (st', concat (map (packet_events MODE_SLIP_AUTO) [[65; 66]; [67]]))
    /\ index st' = 0 /\ flags st' = 0 /\ lastc st' = 0.
Proof.
  apply (reads_arrive_as_packets [[65; 66]; [67]] MODE_SLIP_AUTO).
  - right. left. reflexivity.
  - repeat constructor; unfold SLIP_END, SLIP_ESC, BUFSIZE; simpl; try lia;
      discriminate.
Defined.

(** X15.  In the SLIP-only mode a frame needs no delimiter in front: from an
    empty buffer with no escape open and no overflow pending, the bytes up
    to the next delimiter are the frame, whatever [flags] says. *)
Theorem slip_only_frame_needs_no_opening (st : state) (p : list Z) :
  wf st -> mode st = MODE_SLIP ->
  index st = 0 -> lastc st = 0 -> flags st <> 2 ->
  Forall (fun c => c <> SLIP_END) p ->
  (0 < length (unstuff false p))%nat ->
  Z.of_nat (length (unstuff false p)) < RXBUF_SIZE ->
  exists st',
    run st (p ++ [SLIP_END]) = Some (st', [Packet (unstuff false p)])
    /\ index st' = 0 /\ flags st' = 0 /\ lastc st' = 0.
Proof.
  intros Hwf Hm Hi Hl Hf Hp Hpos Hlt.
  assert (Hon : slip_on st) by (by left).
  assert (He : escaped st = false) by (unfold escaped; by rewrite Hl).
  assert (Hfill : filled st p = Z.of_nat (length (unstuff false p)))
    by (unfold filled; rewrite He, Hi; lia).
  destruct (run_payload p st Hwf Hon Hp)
    as (st1 & Hr & Hm1 & Hidx & Hfl & _ & Hbuf & Hwf1).
  rewrite Hfill in Hr, Hidx, Hfl, Hbuf.
  rewrite Z.div_small in Hr by lia. rewrite Z.mod_small in Hidx by lia.
  destruct (Z.ltb_spec (Z.of_nat (length (unstuff false p))) RXBUF_SIZE); [|lia].
  specialize (Hbuf Hlt). rewrite He in Hbuf.
  assert (Hfb : frame_buffer st = []) by (unfold frame_buffer; by rewrite Hi).
  rewrite Hfb in Hbuf. simpl in Hbuf.
  assert (Hm1' : slip_mode (mode st1)) by (rewrite Hm1, Hm; by left).
  exists (closed st1). rewrite run_app, Hr. cbn -[run].
  rewrite run_single, (step_end _ Hm1'), slip_byte_end_close by lia.
  rewrite Hbuf, Hfl, Hm1, Hm.
  destruct (Z.eqb_spec (flags st) 2); [contradiction|]. simpl. auto.
Qed.

Lemma slip_only_frame_needs_no_opening_witness :
  exists st',
    run (init MODE_SLIP) ([65; 219; 220] ++ [SLIP_END])
    = Some (st', [Packet (unstuff false [65; 219; 220])])
    /\ index st' = 0 /\ flags st' = 0 /\ lastc st' = 0.
Proof.
  apply (slip_only_frame_needs_no_opening (init MODE_SLIP) [65; 219; 220]).
  - apply wf_init.
  - reflexivity.
  - reflexivity.
  - reflexivity.
  - simpl. lia.
  - repeat constructor; unfold SLIP_END; lia.
  - simpl. lia.
  - simpl. unfold RXBUF_SIZE. lia.
Defined.

Lemma unstuff_stuff (B : list Z) : unstuff false (stuff B) = B.
Proof.
  induction B as [|c rest IH]; [reflexivity|]. simpl stuff.
  destruct (Z.eqb_spec c SLIP_END) as [-> | Hend].
  { change (unstuff false ([SLIP_ESC; SLIP_ESC_END] ++ stuff rest))
      with (SLIP_END :: unstuff false (stuff rest)). by rewrite IH. }
  destruct (Z.eqb_spec c SLIP_ESC) as [-> | Hesc].
  { change (unstuff false ([SLIP_ESC; SLIP_ESC_ESC] ++ stuff rest))
      with (SLIP_ESC :: unstuff false (stuff rest)). by rewrite IH. }
  simpl. destruct (Z.eqb_spec c SLIP_ESC); [contradiction|]. by rewrite IH.
Qed.

Lemma stuff_has_no_delimiter (B : list Z) :
  Forall (fun c => c <> SLIP_END) (stuff B).
Proof.
  induction B as [|c rest IH]; [constructor|]. simpl.
  destruct (Z.eqb_spec c SLIP_END); [repeat constructor; [discriminate.. | exact IH]|].
  destruct (Z.eqb_spec c SLIP_ESC); repeat constructor;
    try discriminate; try assumption.
Qed.

(** X16.  The decoder undoes the byte stuffing of the wire format: any frame of
    1 to 2047 bytes, whatever bytes it holds, stuffed and put between two
    delimiters, is decoded to exactly that frame. *)
Theorem decoder_undoes_stuffing (st : state) (B : list Z) :
  wf st -> slip_mode (mode st) ->
  index st = 0 -> flags st = 0 -> lastc st = 0 ->
  B <> [] -> Z.of_nat (length B) < RXBUF_SIZE ->
  exists st',
    run st (SLIP_END :: stuff B ++ [SLIP_END])
    = Some (st', packet_events (mode st) B)
    /\ index st' = 0 /\ flags st' = 0 /\ lastc st' = 0.
Proof.
  intros Hwf Hm Hi Hf Hl Hne Hlen.
  destruct (run_frame st (stuff B) Hwf Hm Hi Hf Hl (stuff_has_no_delimiter B))
    as (st' & Hr & _ & Hi' & Hf' & Hl' & _).
  - rewrite unstuff_stuff. destruct B; [contradiction | simpl; lia].
  - by rewrite unstuff_stuff.
  - rewrite unstuff_stuff in Hr. eauto.
Qed.

Lemma decoder_undoes_stuffing_witness :
  exists st',
    run (init MODE_SLIP) (SLIP_END :: stuff [65; 192; 219; 220] ++ [SLIP_END])
    = Some (st', packet_events (mode (init MODE_SLIP)) [65; 192; 219; 220])
    /\ index st' = 0 /\ flags st' = 0 /\ lastc st' = 0.
Proof.
  apply (decoder_undoes_stuffing (init MODE_SLIP) [65; 192; 219; 220]).
  - apply wf_init.
  - left. reflexivity.
  - reflexivity.
  - reflexivity.
  - reflexivity.
  - discriminate.
  - simpl. unfold RXBUF_SIZE. lia.
Defined.

(** ** The transmit path *)

Lemma wrote_app (a b : list tx_event) : wrote (a ++ b) = wrote a ++ wrote b.
Proof.
  induction a as [|e a IH]; [reflexivity|]. destruct e; simpl; by rewrite IH.
Qed.

Lemma slept_app (a b : list tx_event) : slept (a ++ b) = slept a ++ slept b.
Proof.
  induction a as [|e a IH]; [reflexivity|]. destruct e; simpl; by rewrite IH.
Qed.

Lemma write_slowly_through (delay : Z) (ok : nat -> bool) (buf : list Z) :
  forall k : nat,
    (forall j, (j < length buf)%nat -> ok (k + j)%nat = true) ->
    exists evs,
      write_slowly delay ok k buf = (evs, None)
      /\ wrote evs = buf
      /\ slept evs = (if delay >? 0 then replicate (length buf) delay else []).
Proof.
  induction buf as [|c rest IH]; intros k Hok.
  - exists []. simpl. by destruct (delay >? 0).
  - destruct (IH (S k)) as (evs & Hw & Hwr & Hsl).
    { intros j Hj. replace (S k + j)%nat with (k + S j)%nat by lia.
      apply Hok. simpl. lia. }
    pose proof (Hok 0%nat ltac:(simpl; lia)) as H0.
    rewrite Nat.add_0_r in H0.
    eexists. simpl. rewrite H0, Hw. split; [reflexivity|].
    simpl. rewrite wrote_app, slept_app, Hwr, Hsl.
    destruct (delay >? 0); simpl; auto.
Qed.

Lemma write_slowly_fails (delay : Z) (ok : nat -> bool) (buf : list Z) :
  forall (k i : nat),
    (i < length buf)%nat ->
    (forall j, (j < i)%nat -> ok (k + j)%nat = true) ->
    ok (k + i)%nat = false ->
    exists evs,
      write_slowly delay ok k buf = (evs, Some 1)
      /\ wrote evs = take i buf.
Proof.
  induction buf as [|c rest IH]; intros k i Hi Hok Hfail; [simpl in Hi; lia|].
  destruct i as [|i].
  - rewrite Nat.add_0_r in Hfail. exists []. simpl. by rewrite Hfail.
  - destruct (IH (S k) i) as (evs & Hw & Hwr).
    + simpl in Hi. lia.
    + intros j Hj. replace (S k + j)%nat with (k + S j)%nat by lia.
      apply Hok. lia.
    + by replace (S k + i)%nat with (k + S i)%nat by lia.
    + pose proof (Hok 0%nat ltac:(lia)) as H0. rewrite Nat.add_0_r in H0.
      eexists. simpl. rewrite H0, Hw. split; [reflexivity|].
      simpl. rewrite wrote_app, Hwr. by destruct (delay >? 0).
Qed.

(** X17.  When every write of a byte of the read goes through, the program goes
    on, the channel gets the read as it is, in MODE_SLIP between the two
    delimiters (each one missing if its own write, which is not checked,
    did not go through), and with a positive [delay] one pause is made
    after every byte of the read. *)
Theorem stdin_bytes_all_written (m : mode_t) (delay : Z) (ok : nat -> bool)
    (buf : list Z) :
  buf <> [] ->
  (forall j, (j < length buf)%nat ->
             ok ((if mode_eqb m MODE_SLIP then 1 else 0) + j)%nat = true) ->
  exists evs,
    stdin_ready m delay ok (Some buf) = (evs, None)
    /\ wrote evs
       = (if mode_eqb m MODE_SLIP && ok 0%nat then [slipend] else [])
         ++ buf
         ++ (if mode_eqb m MODE_SLIP && ok (S (length buf)) then [slipend] else [])
    /\ slept evs = (if delay >? 0 then replicate (length buf) delay else [])
    /\ (ok 0%nat = true -> ok (S (length buf)) = true ->
        wrote evs = send_chunk m buf).
Proof.
  intros Hne Hok.
  destruct (write_slowly_through delay ok buf _ Hok) as (evs & Hw & Hwr & Hsl).
  destruct buf as [|c rest]; [contradiction|].
  unfold stdin_ready. cbv zeta. rewrite Hw.
  eexists. split; [reflexivity|].
  rewrite !wrote_app, !slept_app, Hwr, Hsl. unfold write_slipend, send_chunk.
  destruct (mode_eqb m MODE_SLIP); simpl.
  - destruct (ok 0%nat), (ok (S (S (length rest)))); simpl;
      rewrite ?app_nil_r; repeat split; auto; try discriminate.
  - rewrite !app_nil_r. auto.
Qed.

Lemma stdin_bytes_all_written_witness :
  exists evs,
    stdin_ready MODE_SLIP 6000 (fun _ => true) (Some [65; 66]) = (evs, None)
    /\ wrote evs
       = (if mode_eqb MODE_SLIP MODE_SLIP && true then [slipend] else [])
         ++ [65; 66]
         ++ (if mode_eqb MODE_SLIP MODE_SLIP && true then [slipend] else [])
    /\ slept evs = (if 6000 >? 0 then replicate (length [65; 66]%Z) 6000 else [])
    /\ (true = true -> true = true -> wrote evs = send_chunk MODE_SLIP [65; 66]).
Proof.
  apply (stdin_bytes_all_written MODE_SLIP 6000 (fun _ => true) [65; 66]).
  - discriminate.
  - reflexivity.
Defined.

(** X18.  When the write of the byte at position [i] of the read is the first
    that does not go through, the program exits with status 1; the channel
    has got the bytes before it and, in MODE_SLIP, neither that byte nor
    anything after it, so the frame is left without its closing
    delimiter. *)
Theorem stdin_write_failure_exits (m : mode_t) (delay : Z) (ok : nat -> bool)
    (buf : list Z) (i : nat) :
  (i < length buf)%nat ->
  (forall j, (j < i)%nat ->
             ok ((if mode_eqb m MODE_SLIP then 1 else 0) + j)%nat = true) ->
  ok ((if mode_eqb m MODE_SLIP then 1 else 0) + i)%nat = false ->
  exists evs,
    stdin_ready m delay ok (Some buf) = (evs, Some 1)
    /\ wrote evs
       = (if mode_eqb m MODE_SLIP && ok 0%nat then [slipend] else [])
         ++ take i buf.
Proof.
  intros Hi Hok Hfail.
  destruct (write_slowly_fails delay ok buf _ i Hi Hok Hfail) as (evs & Hw & Hwr).
  destruct buf as [|c rest]; [simpl in Hi; lia|].
  unfold stdin_ready. cbv zeta. rewrite Hw.
  eexists. split; [reflexivity|].
  rewrite wrote_app, Hwr. unfold write_slipend.
  destruct (mode_eqb m MODE_SLIP); [|reflexivity].
  destruct (ok 0%nat); reflexivity.
Qed.

Lemma stdin_write_failure_exits_witness :
  exists evs,
    stdin_ready MODE_SLIP 0 (fun k => Nat.ltb k 2) (Some [65; 66; 67]) = (evs, Some 1)
    /\ wrote evs
       = (if mode_eqb MODE_SLIP MODE_SLIP && (fun k => Nat.ltb k 2) 0%nat
          then [slipend] else [])
         ++ take 1 [65; 66; 67].
Proof.
  apply (stdin_write_failure_exits MODE_SLIP 0 (fun k => Nat.ltb k 2) [65; 66; 67] 1).
  - simpl. lia.
  - intros j Hj. assert (j = 0%nat) as -> by lia. reflexivity.
  - reflexivity.
Defined.

(** ** The command line *)

Lemma apply_option_sound (atoi : string -> Z) (o : getopt_result) (cfg cfg' : config) :
  apply_option atoi o cfg = inl cfg' ->
  0 <= cfg_delay cfg -> start_mode (cfg_mode cfg) = true ->
  0 <= cfg_baudrate cfg < 2 ^ 32 ->
  0 <= cfg_delay cfg' /\ start_mode (cfg_mode cfg') = true
  /\ 0 <= cfg_baudrate cfg' < 2 ^ 32.
Proof.
  intros Ha Hd Hm Hb. destruct o; simpl in Ha.
  1,2: injection Ha as <-; simpl; repeat split; auto;
       apply Z.mod_pos_bound; lia.
  1,2: injection Ha as <-; simpl; auto.
  - injection Ha as <-. simpl. repeat split; auto; try apply Hb.
    destruct optarg as [arg|]; [|reflexivity].
    destruct (Ascii.eqb (first_char arg) "n"); [reflexivity|].
    by destruct (Ascii.eqb (first_char arg) "o").
  - injection Ha as <-. simpl. auto.
  - injection Ha as <-. simpl. auto.
  - destruct (Z.ltb_spec (atoi optarg) 0); [discriminate|].
    injection Ha as <-. simpl. auto.
  - discriminate.
  - discriminate.
Qed.

(** X19.  Whatever the options are, when the option loop ends without leaving
    the program the delay is not negative, the baud rate is an unsigned
    32-bit number, and the mode is one of the seven the receive loop starts
    in (never one of the two modes it moves to by itself). *)
Theorem parsed_options_are_sound (atoi : string -> Z) (opts : list getopt_result)
    (cfg : config) :
  parse_options atoi opts default_config = inl cfg ->
  0 <= cfg_delay cfg
  /\ start_mode (cfg_mode cfg) = true
  /\ 0 <= cfg_baudrate cfg < 2 ^ 32.
Proof.
  assert (Hgen : forall cfg0,
             parse_options atoi opts cfg0 = inl cfg ->
             0 <= cfg_delay cfg0 -> start_mode (cfg_mode cfg0) = true ->
             0 <= cfg_baudrate cfg0 < 2 ^ 32 ->
             0 <= cfg_delay cfg /\ start_mode (cfg_mode cfg) = true
             /\ 0 <= cfg_baudrate cfg < 2 ^ 32).
  { induction opts as [|o rest IH]; intros cfg0 Hp Hd Hm Hb.
    - injection Hp as <-. auto.
    - simpl in Hp. destruct (apply_option atoi o cfg0) as [cfg1|] eqn:Ha; [|discriminate].
      destruct (apply_option_sound _ _ _ _ Ha Hd Hm Hb) as (Hd1 & Hm1 & Hb1).
      by apply (IH cfg1). }
  intros Hp. apply (Hgen default_config Hp); simpl;
    unfold DEFAULT_DELAY, DEFAULT_BAUDRATE; (lia || reflexivity).
Qed.

Lemma parsed_options_are_sound_witness :
  0 <= cfg_delay (mkConfig DEFAULT_BAUDRATE MODE_SLIP None 0 100)
  /\ start_mode (cfg_mode (mkConfig DEFAULT_BAUDRATE MODE_SLIP None 0 100)) = true
  /\ 0 <= cfg_baudrate (mkConfig DEFAULT_BAUDRATE MODE_SLIP None 0 100) < 2 ^ 32.
Proof.
  apply (parsed_options_are_sound (fun _ => 100)
           [Opt_s (Some "o"%string); Opt_d "100"%string]).
  reflexivity.
Defined.

Lemma parse_options_app (atoi : string -> Z) (pre post : list getopt_result)
    (cfg : config) :
  parse_options atoi (pre ++ post) cfg
  = match parse_options atoi pre cfg with
    | inl cfg' => parse_options atoi post cfg'
    | inr status => inr status
    end.
Proof.
  revert cfg. induction pre as [|o pre IH]; intros cfg; [reflexivity|].
  simpl. destruct (apply_option atoi o cfg); [apply IH | reflexivity].
Qed.

(** X20.  A negative delay ends the option loop at once: the program returns
    with status 1 and the options after it are not looked at. *)
Theorem negative_delay_is_refused (atoi : string -> Z)
    (pre post : list getopt_result) (arg : string) (cfg cfg' : config) :
  parse_options atoi pre cfg = inl cfg' ->
  atoi arg < 0 ->
  parse_options atoi (pre ++ Opt_d arg :: post) cfg = inr 1.
Proof.
  intros Hpre Hneg. rewrite parse_options_app, Hpre. simpl.
  destruct (Z.ltb_spec (atoi arg) 0); [reflexivity | lia].
Qed.

Lemma negative_delay_is_refused_witness :
  parse_options (fun _ => -5) ([Opt_x] ++ Opt_d "-5"%string :: [Opt_h]) default_config
  = inr 1.
Proof.
  apply (negative_delay_is_refused (fun _ => -5) [Opt_x] [Opt_h] "-5"%string
           default_config
           (mkConfig DEFAULT_BAUDRATE MODE_HEX None 0 DEFAULT_DELAY)).
  - reflexivity.
  - lia.
Defined.

Lemma apply_option_mode (atoi : string -> Z) (o : getopt_result) (cfg cfg' : config) :
  apply_option atoi o cfg = inl cfg' ->
  cfg_mode cfg' = default (cfg_mode cfg) (option_mode o).
Proof.
  intros Ha. destruct o; simpl in Ha;
    try (injection Ha as <-; reflexivity); try discriminate.
  destruct (atoi optarg <? 0); [discriminate|]. injection Ha as <-. reflexivity.
Qed.

(** X21.  The mode the program runs in is the one of the last option that sets
    a mode (x, i, s, t or T); the options b, B and d leave it alone, and
    without any such option it is the text mode. *)
Theorem last_mode_option_wins (atoi : string -> Z) (opts : list getopt_result)
    (cfg0 cfg : config) :
  parse_options atoi opts cfg0 = inl cfg ->
  cfg_mode cfg
  = default (cfg_mode cfg0) (last (omap option_mode opts)).
Proof.
  revert cfg0. induction opts as [|o rest IH]; intros cfg0 Hp.
  - injection Hp as <-. reflexivity.
  - simpl in Hp. destruct (apply_option atoi o cfg0) as [cfg1|] eqn:Ha; [|discriminate].
    rewrite (IH cfg1 Hp), (apply_option_mode _ _ _ _ Ha).
    assert (Hcons : omap option_mode (o :: rest)
                    = match option_mode o with
                      | Some m => m :: omap option_mode rest
                      | None => omap option_mode rest
                      end) by reflexivity.
    rewrite Hcons.
    destruct (option_mode o) as [m|]; [|reflexivity].
    destruct (omap option_mode rest) as [|m2 ms] eqn:Hrest; [reflexivity|].
    change (last (m :: m2 :: ms)) with (last (m2 :: ms)).
    destruct (last (m2 :: ms)) eqn:Hlast; [reflexivity|].
    apply last_None in Hlast. discriminate.
Qed.

Lemma last_mode_option_wins_witness :
  cfg_mode (mkConfig DEFAULT_BAUDRATE MODE_SLIP_HIDE None 0 7)
  = default (cfg_mode default_config)
      (last (omap option_mode [Opt_x; Opt_d "7"%string; Opt_s (Some "n"%string)])).
Proof.
  apply (last_mode_option_wins (fun _ => 7)
           [Opt_x; Opt_d "7"%string; Opt_s (Some "n"%string)] default_config).
  reflexivity.
Defined.

(** ** The frame-started flag in the SLIP-only mode *)

Lemma step_same_but_started (st1 st2 : state) (c : Z) :
  same_but_started st1 st2 ->
  match step st1 c, step st2 c with
  | Some (st1', evs1), Some (st2', evs2) =>
      evs1 = evs2 /\ same_but_started st1' st2'
  | None, None => True
  | _, _ => False
  end.
Proof.
  intros (Hm1 & Hm2 & Hi & Hl & Hrx & Hf).
  destruct st1 as [m1 i1 f1 l1 rx1], st2 as [m2 i2 f2 l2 rx2].
  simpl in *. subst m1 m2 i2 l2 rx2.
  unfold step, slip_byte, same_but_started. cbn [mode index flags lastc rxbuf].
  destruct (c =? SLIP_ESC); [simpl; tauto|].
  destruct (c =? SLIP_END).
  - destruct (i1 >? 0); cbn [mode index flags lastc rxbuf mode_eqb negb].
    + rewrite !andb_true_r.
      destruct (Z.eqb_spec f1 2), (Z.eqb_spec f2 2); simpl; tauto.
    + unfold lnot. destruct (Z.eqb_spec f1 0), (Z.eqb_spec f2 0); simpl;
        repeat split; auto; lia.
  - destruct (rxbuf_store rx1 i1 (if l1 =? SLIP_ESC then unescape c else c));
      [|exact I].
    cbn -[Z.geb]. destruct (i1 + 1 >=? RXBUF_SIZE); simpl; tauto.
Qed.

(** X22.  In the SLIP-only mode the frame-started value of [flags] changes
    nothing that is shown: two runs over the same bytes that start with
    [flags] 0 and 1 (or both overflowed) print the same, and stay alike. *)
Theorem slip_only_ignores_frame_flag (bytes : list Z) (st1 st2 : state) :
  same_but_started st1 st2 ->
  option_map snd (run st1 bytes) = option_map snd (run st2 bytes).
Proof.
  revert st1 st2. induction bytes as [|c rest IH]; intros st1 st2 Hsame;
    [reflexivity|].
  rewrite !run_cons. pose proof (step_same_but_started st1 st2 c Hsame) as Hstep.
  destruct (step st1 c) as [[st1' evs1]|], (step st2 c) as [[st2' evs2]|];
    try contradiction; [|reflexivity].
  destruct Hstep as [-> Hsame']. cbn -[run].
  specialize (IH st1' st2' Hsame').
  destruct (run st1' rest) as [[s1 e1]|], (run st2' rest) as [[s2 e2]|];
    simpl in *; congruence.
Qed.

Lemma slip_only_ignores_frame_flag_witness :
  option_map snd (run (init MODE_SLIP) [65; 192; 192; 66; 192])
  = option_map snd (run (toggled (init MODE_SLIP)) [65; 192; 192; 66; 192]).
Proof.
  apply (slip_only_ignores_frame_flag [65; 192; 192; 66; 192]
           (init MODE_SLIP) (toggled (init MODE_SLIP))).
  repeat split; simpl; intros; discriminate.
Defined.
